(** * Freqtrade strategies: Grid and IchiV1

    A shallow embedding of the four strategy classes of the repository
    (GridStrategy, GridStrategyV2, IchiV1_Fixed, IchiV1_Optimizable) and the
    properties their specification states about them.

    Data model.
    - A Python float is an IEEE binary64 value: Rocq's primitive [float].
      NaN is pandas' missing value; every comparison with NaN is false.
    - A pandas Series is a [list float]; a boolean mask is a [list bool].
    - A DataFrame is a finite map from column names to series,
      [gmap string (list float)]; its rows are the rows of its columns.
    - A Python exception is [None]: reading a column that is absent raises
      KeyError, assigning a scalar to a new column of a frame without rows
      raises ValueError; the enclosing function then returns [None]. *)

From Stdlib Require Import ZArith Floats.
From stdpp Require Import base option list strings gmap fin_maps.

Set Warnings "-inexact-float".
Local Open Scope string_scope.
Local Open Scope list_scope.

(** ** Floats, series and frames *)

Abbreviation Series := (list float).
Abbreviation Mask := (list bool).
Abbreviation DataFrame := (gmap string (list float)).

Definition NaN : float := PrimFloat.nan.

(** Python's comparison operators on floats. *)
Definition fgt (x y : float) : bool := PrimFloat.ltb y x.
Definition fge (x y : float) : bool := PrimFloat.leb y x.
Definition flt (x y : float) : bool := PrimFloat.ltb x y.
Definition fle (x y : float) : bool := PrimFloat.leb x y.

(** Element-wise operators of pandas on two series of one frame (same
    index), and on a series and a scalar. *)
Definition s_gt (a b : Series) : Mask := zip_with fgt a b.
Definition s_ge (a b : Series) : Mask := zip_with fge a b.
Definition s_lt (a b : Series) : Mask := zip_with flt a b.
Definition s_le (a b : Series) : Mask := zip_with fle a b.
Definition s_gt_c (a : Series) (c : float) : Mask := (λ x, fgt x c) <$> a.
Definition s_ge_c (a : Series) (c : float) : Mask := (λ x, fge x c) <$> a.
Definition s_lt_c (a : Series) (c : float) : Mask := (λ x, flt x c) <$> a.
Definition m_and (a b : Mask) : Mask := zip_with andb a b.
Definition m_or (a b : Mask) : Mask := zip_with orb a b.
Definition s_div (a b : Series) : Series := zip_with PrimFloat.div a b.
Definition s_mul_c (a : Series) (c : float) : Series :=
  (λ x, PrimFloat.mul x c) <$> a.

(** [Series.shift(n)] for [n >= 0]: the values move [n] rows down, the
    first [n] rows become NaN and the length is kept. *)
Definition shift (n : nat) (s : Series) : Series :=
  take (length s) (replicate n NaN ++ s).

(** The frame [dataframe.loc[mask, col] = v] leaves when it goes through. A
    column that does not exist yet is created with NaN in the rows the mask
    leaves out; an existing column keeps its values there. *)
Definition mark_rows (mask : Mask) (col : string) (v : float)
    (df : DataFrame) : DataFrame :=
  let old := default (replicate (length mask) NaN) (df !! col) in
  <[col := zip_with (λ (m : bool) (o : float), if m then v else o) mask old]> df.

(** [dataframe.loc[mask, col] = v]. The mask has one entry per row of the
    frame. On a frame without rows a scalar cannot be assigned to a column
    that does not exist yet: pandas raises ValueError (cannot set a frame
    with no defined index and a scalar). *)
Definition loc_assign (mask : Mask) (col : string) (v : float)
    (df : DataFrame) : option DataFrame :=
  match df !! col, mask with
  | None, [] => None
  | _, _ => Some (mark_rows mask col v df)
  end.

(** The value of a flag column at a row, and whether the flag is set (the
    cell holds 1). *)
Definition cell (df : DataFrame) (col : string) (i : nat) : option float :=
  df !! col ≫= (λ s : Series, s !! i).

Definition flag_set (df : DataFrame) (col : string) (i : nat) : bool :=
  match cell df col i with
  | Some v => PrimFloat.eqb v 1
  | None => false
  end.

(** Whether the flag is set at a row of the frame a function returns;
    [None] when the function raised. *)
Definition flag_after (result : option DataFrame) (col : string) (i : nat)
    : option bool :=
  df ← result; Some (flag_set df col i).

Definition value (df : DataFrame) (col : string) (i : nat) : float :=
  default NaN (cell df col i).

(** The value of a series at a row, undefined outside the series, and the
    value of a mask at a row, false outside the mask. *)
Definition row (s : Series) (i : nat) : float := default NaN (s !! i).
Definition at_mask (m : Mask) (i : nat) : bool := default false (m !! i).

(** ** Assignments to columns

    The indicator stage is a sequence of statements
    [dataframe[name] = expression], each expression reading columns of the
    frame as it stands at that point. [exec] runs such a sequence; a
    KeyError in an expression aborts the run. *)

Definition Expr := DataFrame → option Series.

Definition col (name : string) : Expr := λ df, df !! name.
Definition const (s : Series) : Expr := λ _, Some s.
Definition e_div (a b : Expr) : Expr :=
  λ df, x ← a df; y ← b df; Some (s_div x y).
Definition e_shift (n : nat) (a : Expr) : Expr :=
  λ df, x ← a df; Some (shift n x).
Definition e_mul_c (a : Expr) (c : float) : Expr :=
  λ df, x ← a df; Some (s_mul_c x c).

Definition assign (name : string) (e : Expr) (df : DataFrame)
    : option DataFrame :=
  s ← e df; Some (<[name := s]> df).

Fixpoint exec (prog : list (string * Expr)) (df : DataFrame)
    : option DataFrame :=
  match prog with
  | [] => Some df
  | (name, e) :: rest => df' ← assign name e df; exec rest df'
  end.

Notation "name ::= e" := (name, e) (at level 60, only parsing).

(** ** Condition lists

    The IchiV1 signal functions collect boolean series in a Python list,
    [conditions.append(...)], some of them under an [if], and then assign
    the flag where [reduce(lambda x, y: x & y, conditions)] holds. *)

Definition Cond := DataFrame → option Mask.

Definition c_gt (a b : string) : Cond :=
  λ df, x ← df !! a; y ← df !! b; Some (s_gt x y).
Definition c_ge_c (a : string) (c : float) : Cond :=
  λ df, x ← df !! a; Some (s_ge_c x c).
Definition c_gt_c (a : string) (c : float) : Cond :=
  λ df, x ← df !! a; Some (s_gt_c x c).
Definition c_shift_lt (a : string) (n : nat) : Cond :=
  λ df, x ← df !! a; y ← df !! a; Some (s_lt (shift n x) y).

(** [if guard: conditions.append(c1); conditions.append(c2); ...] *)
Definition append_if (guard : bool) (cs : list Cond) (df : DataFrame)
    (conditions : list Mask) : option (list Mask) :=
  if guard then new ← mapM (λ c : Cond, c df) cs; Some (conditions ++ new)
  else Some conditions.

(** [if conditions: dataframe.loc[reduce(lambda x, y: x & y, conditions), flag] = 1] *)
Definition activate (conditions : list Mask) (flag : string)
    (df : DataFrame) : option DataFrame :=
  match conditions with
  | [] => Some df
  | c :: cs => loc_assign (foldl m_and c cs) flag 1 df
  end.

(** ** The indicator libraries

    TA-Lib ([ta.SMA], [ta.EMA], [ta.RSI], [ta.ATR]), qtpylib's
    [bollinger_bands] and technical's [ichimoku] are third-party packages.
    The strategies are embedded over an interface of them; the results of
    the two frame-valued functions are records of the columns they carry. *)

Record Bollinger := {
  bb_upper : Series;
  bb_mid : Series;
  bb_lower : Series
}.

Record Ichimoku := {
  tenkan_sen : Series;
  kijun_sen : Series;
  senkou_span_a : Series;
  senkou_span_b : Series;
  leading_senkou_span_a : Series;
  leading_senkou_span_b : Series;
  cloud_green : Series;
  cloud_red : Series
}.

Class Indicators := {
  ta_SMA : Series → nat → Series;
  ta_EMA : Series → nat → Series;
  ta_RSI : Series → nat → Series;
  (* high, low, close, timeperiod *)
  ta_ATR : Series → Series → Series → nat → Series;
  (* series, window, stds *)
  bollinger_bands : Series → nat → float → Bollinger;
  (* high, low, close, conversion_line_period, base_line_periods,
     laggin_span, displacement *)
  ichimoku : Series → Series → Series → nat → nat → nat → nat → Ichimoku
}.

(** A talib.abstract function called on a frame reads its [close] column;
    [ta.ATR] and [ichimoku] read [high], [low] and [close]. *)
Definition on_close (f : Series → nat → Series) (n : nat) : Expr :=
  λ df, c ← df !! "close"; Some (f c n).
Definition on_col (f : Series → nat → Series) (name : string) (n : nat)
    : Expr :=
  λ df, c ← df !! name; Some (f c n).
Definition on_hlc {A} (f : Series → Series → Series → A) (df : DataFrame)
    : option A :=
  h ← df !! "high"; l ← df !! "low"; c ← df !! "close"; Some (f h l c).

(** Modelled from the spec: qtpylib's [heikinashi] (third-party, not in the
    repository). The specification describes it as a recursive transform
    where each smoothed open is the average of the previous smoothed open
    and close, and smoothed high/low are the max/min of the raw extremes
    and the smoothed open/close. The smoothed close is the Heikin-Ashi
    close of the helper, the mean of the four prices of the candle. The
    smoothed open of row 0 is the average of open and close of row 0, which
    the helper reads by label: on a frame without rows it raises KeyError.
    The row-wise [max(axis=1)] and [min(axis=1)] of pandas skip missing
    values. *)
Definition avg (x y : float) : float := ((x + y) / 2)%float.

Definition row_max (x y : float) : float :=
  if PrimFloat.is_nan x then y
  else if PrimFloat.is_nan y then x
  else if PrimFloat.ltb x y then y else x.

Definition row_min (x y : float) : float :=
  if PrimFloat.is_nan x then y
  else if PrimFloat.is_nan y then x
  else if PrimFloat.ltb y x then y else x.

Definition max3 (x y z : float) : float := row_max (row_max x y) z.
Definition min3 (x y z : float) : float := row_min (row_min x y) z.

(* (open + high + low + close) / 4, row by row. *)
Definition ha_close_of (o h l c : Series) : Series :=
  zip_with (λ oh lc, ((oh.1 + oh.2 + lc.1 + lc.2) / 4)%float)
    (zip o h) (zip l c).

(* [o] is the smoothed open of the first of the remaining rows. *)
Fixpoint ha_open_from (o : float) (closes : Series) : Series :=
  match closes with
  | [] => []
  | c :: rest => o :: ha_open_from (avg o c) rest
  end.

Record HeikinAshi := {
  ha_open : Series;
  ha_high : Series;
  ha_low : Series;
  ha_close : Series
}.

Definition heikinashi_of (o h l c : Series) : option HeikinAshi :=
  match o, c with
  | o0 :: _, c0 :: _ =>
      let sc := ha_close_of o h l c in
      let so := ha_open_from (avg o0 c0) sc in
      Some {| ha_open := so;
              ha_high := zip_with (λ hi oc, max3 hi oc.1 oc.2) h (zip so sc);
              ha_low := zip_with (λ lo oc, min3 lo oc.1 oc.2) l (zip so sc);
              ha_close := sc |}
  | _, _ => None
  end.

Definition heikinashi (df : DataFrame) : option HeikinAshi :=
  o ← df !! "open"; h ← df !! "high"; l ← df !! "low"; c ← df !! "close";
  heikinashi_of o h l c.

(** Modelled from the spec: qtpylib's [crossed_below] (third-party, not in
    the repository), as the specification describes it: true at row [i]
    iff the price was at or above the indicator at row [i-1] and is below
    it at row [i]; false at row 0, where there is no earlier row. *)
Definition crossed_below_at (price ind : Series) (i : nat) : bool :=
  match i with
  | 0 => false
  | S j =>
      match price !! j, ind !! j, price !! i, ind !! i with
      | Some pj, Some ij, Some pi, Some ii => fge pj ij && flt pi ii
      | _, _, _, _ => false
      end
  end.

Definition crossed_below (price ind : Series) : Mask :=
  crossed_below_at price ind <$> seq 0 (length price).

(** ** The host's base class

    [IStrategy] belongs to the host framework, not to the repository. A
    strategy class that does not define [custom_stoploss] inherits the base
    method, which returns the configured static stop-loss. *)
Module IStrategy.

Definition custom_stoploss {Trade : Type} (stoploss : float) (pair : string)
    (trade : Trade) (current_time : Z) (current_rate current_profit : float)
    : float :=
  stoploss.

End IStrategy.

(** ** GridStrategy *)
Module GridStrategy.
Section Strategy.
Context {L : Indicators}.

Definition stoploss : float := (-0.05)%float.
Definition grid_spacing_percent : float := 2.0%float.
Definition grid_levels : Z := 4.
Definition startup_candle_count : nat := 30.

Definition populate_indicators (dataframe : DataFrame) : option DataFrame :=
  dataframe ← exec
    [ "sma_20" ::= on_close ta_SMA 20;
      "sma_50" ::= on_close ta_SMA 50;
      "rsi" ::= on_close ta_RSI 14;
      "atr" ::= (λ df, on_hlc (λ h l c, ta_ATR h l c 14) df) ] dataframe;
  close ← dataframe !! "close";
  let bollinger := bollinger_bands close 20 2 in
  exec
    [ "bb_lowerband" ::= const (bb_lower bollinger);
      "bb_upperband" ::= const (bb_upper bollinger);
      "bb_middleband" ::= const (bb_mid bollinger);
      "grid_buy_level" ::=
        e_mul_c (col "close") (1 - grid_spacing_percent / 100)%float;
      "grid_sell_level" ::=
        e_mul_c (col "close") (1 + grid_spacing_percent / 100)%float;
      "volume_sma" ::= on_col ta_SMA "volume" 20 ] dataframe.

Definition entry_mask (df : DataFrame) : option Mask :=
  close ← df !! "close"; bb_lowerband ← df !! "bb_lowerband";
  rsi ← df !! "rsi"; sma_20 ← df !! "sma_20";
  volume ← df !! "volume"; volume_sma ← df !! "volume_sma";
  Some (m_and
          (m_and
             (m_or (m_or (s_le close bb_lowerband) (s_lt_c rsi 40))
                   (m_and (s_lt close sma_20) (s_gt volume volume_sma)))
             (s_gt_c volume 0))
          (s_gt_c close 0)).

Definition populate_entry_trend (dataframe : DataFrame) : option DataFrame :=
  mask ← entry_mask dataframe;
  loc_assign mask "enter_long" 1 dataframe.

Definition exit_mask (df : DataFrame) : option Mask :=
  close ← df !! "close"; bb_upperband ← df !! "bb_upperband";
  rsi ← df !! "rsi"; sma_20 ← df !! "sma_20";
  volume ← df !! "volume"; volume_sma ← df !! "volume_sma";
  Some (m_and
          (m_or (m_or (s_ge close bb_upperband) (s_gt_c rsi 60))
                (m_and (s_gt close sma_20) (s_gt volume volume_sma)))
          (s_gt_c volume 0)).

Definition populate_exit_trend (dataframe : DataFrame) : option DataFrame :=
  mask ← exit_mask dataframe;
  loc_assign mask "exit_long" 1 dataframe.

Definition custom_stoploss {Trade : Type} (pair : string) (trade : Trade)
    (current_time : Z) (current_rate current_profit : float) : float :=
  if fgt current_profit 0.01 then (-0.02)%float else stoploss.

Definition confirm_trade_entry (pair order_type : string) (amount rate : float)
    (time_in_force : string) (current_time : Z) (entry_tag side : string)
    : bool :=
  true.

End Strategy.
End GridStrategy.

(** ** GridStrategyV2

    The class defines the three populate functions only; its
    [custom_stoploss] is the one it inherits from [IStrategy]. *)
Module GridStrategyV2.
Section Strategy.
Context {L : Indicators}.

Definition stoploss : float := (-0.06)%float.
Definition trailing_stop : bool := true.
Definition trailing_stop_positive : float := 0.01%float.
Definition trailing_stop_positive_offset : float := 0.015%float.
Definition startup_candle_count : nat := 30.

Definition populate_indicators (dataframe : DataFrame) : option DataFrame :=
  close ← dataframe !! "close";
  let bollinger := bollinger_bands close 20 2 in
  exec
    [ "bb_lowerband" ::= const (bb_lower bollinger);
      "bb_upperband" ::= const (bb_upper bollinger);
      "bb_middleband" ::= const (bb_mid bollinger);
      "rsi" ::= on_close ta_RSI 14;
      "volume_sma" ::= on_col ta_SMA "volume" 20 ] dataframe.

Definition entry_mask (df : DataFrame) : option Mask :=
  close ← df !! "close"; bb_lowerband ← df !! "bb_lowerband";
  rsi ← df !! "rsi"; volume ← df !! "volume";
  Some (m_and (m_or (s_le close bb_lowerband) (s_lt_c rsi 30))
              (s_gt_c volume 0)).

Definition populate_entry_trend (dataframe : DataFrame) : option DataFrame :=
  mask ← entry_mask dataframe;
  loc_assign mask "enter_long" 1 dataframe.

Definition exit_mask (df : DataFrame) : option Mask :=
  close ← df !! "close"; bb_upperband ← df !! "bb_upperband";
  rsi ← df !! "rsi"; volume ← df !! "volume";
  Some (m_and (m_and (s_ge close bb_upperband) (s_gt_c rsi 70))
              (s_gt_c volume 0)).

Definition populate_exit_trend (dataframe : DataFrame) : option DataFrame :=
  mask ← exit_mask dataframe;
  loc_assign mask "exit_long" 1 dataframe.

Definition custom_stoploss {Trade : Type} :
    string → Trade → Z → float → float → float :=
  IStrategy.custom_stoploss stoploss.

End Strategy.
End GridStrategyV2.

(** ** IchiV1

    [IchiV1_Fixed] and [IchiV1_Optimizable] run the same three functions;
    the first reads its parameters from the [buy_params] and [sell_params]
    dictionaries, the second from the current [.value] of its hyperopt
    parameters. The functions are embedded once, over the parameter values,
    and instantiated for each class. *)
Record BuyParams := {
  buy_fan_magnitude_shift_value : Z;
  buy_min_fan_magnitude_gain : float;
  buy_trend_above_senkou_level : Z;
  buy_trend_bullish_level : Z
}.

Module IchiV1.
Section Strategy.
Context {L : Indicators}.

Definition stoploss : float := (-0.275)%float.
Definition startup_candle_count : nat := 96.

Definition populate_indicators (dataframe : DataFrame) : option DataFrame :=
  heikinashi ← heikinashi dataframe;
  dataframe ← exec
    [ "open" ::= const (ha_open heikinashi);
      "high" ::= const (ha_high heikinashi);
      "low" ::= const (ha_low heikinashi);
      "trend_close_5m" ::= col "close";
      "trend_close_15m" ::= on_col ta_EMA "close" 3;
      "trend_close_30m" ::= on_col ta_EMA "close" 6;
      "trend_close_1h" ::= on_col ta_EMA "close" 12;
      "trend_close_2h" ::= on_col ta_EMA "close" 24;
      "trend_close_4h" ::= on_col ta_EMA "close" 48;
      "trend_close_6h" ::= on_col ta_EMA "close" 72;
      "trend_close_8h" ::= on_col ta_EMA "close" 96;
      "trend_open_5m" ::= col "open";
      "trend_open_15m" ::= on_col ta_EMA "open" 3;
      "trend_open_30m" ::= on_col ta_EMA "open" 6;
      "trend_open_1h" ::= on_col ta_EMA "open" 12;
      "trend_open_2h" ::= on_col ta_EMA "open" 24;
      "trend_open_4h" ::= on_col ta_EMA "open" 48;
      "trend_open_6h" ::= on_col ta_EMA "open" 72;
      "trend_open_8h" ::= on_col ta_EMA "open" 96;
      "fan_magnitude" ::= e_div (col "trend_close_1h") (col "trend_close_8h");
      "fan_magnitude_gain" ::=
        e_div (col "fan_magnitude") (e_shift 1 (col "fan_magnitude")) ]
    dataframe;
  ichimoku ← on_hlc (λ h l c, ichimoku h l c 20 60 120 30) dataframe;
  exec
    [ "tenkan_sen" ::= const (tenkan_sen ichimoku);
      "kijun_sen" ::= const (kijun_sen ichimoku);
      "senkou_a" ::= const (senkou_span_a ichimoku);
      "senkou_b" ::= const (senkou_span_b ichimoku);
      "leading_senkou_span_a" ::= const (leading_senkou_span_a ichimoku);
      "leading_senkou_span_b" ::= const (leading_senkou_span_b ichimoku);
      "cloud_green" ::= const (cloud_green ichimoku);
      "cloud_red" ::= const (cloud_red ichimoku);
      "atr" ::= (λ df, on_hlc (λ h l c, ta_ATR h l c 14) df) ] dataframe.

(* [for x in range(n): conditions.append(fan_magnitude.shift(x + 1) < fan_magnitude)] *)
Definition append_shifts (n : Z) (df : DataFrame) (conditions : list Mask)
    : option (list Mask) :=
  foldl (λ acc x, conditions ← acc;
                  append_if true [c_shift_lt "fan_magnitude" (x + 1)] df
                    conditions)
        (Some conditions) (seq 0 (Z.to_nat n)).

Definition entry_conditions (p : BuyParams) (df : DataFrame)
    : option (list Mask) :=
  let above := buy_trend_above_senkou_level p in
  let bullish := buy_trend_bullish_level p in
  let senkou t := [c_gt t "senkou_a"; c_gt t "senkou_b"] in
  conditions ← Some [];
  conditions ← append_if (1 <=? above)%Z (senkou "trend_close_5m") df conditions;
  conditions ← append_if (2 <=? above)%Z (senkou "trend_close_15m") df conditions;
  conditions ← append_if (3 <=? above)%Z (senkou "trend_close_30m") df conditions;
  conditions ← append_if (4 <=? above)%Z (senkou "trend_close_1h") df conditions;
  conditions ← append_if (5 <=? above)%Z (senkou "trend_close_2h") df conditions;
  conditions ← append_if (6 <=? above)%Z (senkou "trend_close_4h") df conditions;
  conditions ← append_if (7 <=? above)%Z (senkou "trend_close_6h") df conditions;
  conditions ← append_if (8 <=? above)%Z (senkou "trend_close_8h") df conditions;
  conditions ← append_if (1 <=? bullish)%Z
    [c_gt "trend_close_5m" "trend_open_5m"] df conditions;
  conditions ← append_if (2 <=? bullish)%Z
    [c_gt "trend_close_15m" "trend_open_15m"] df conditions;
  conditions ← append_if (3 <=? bullish)%Z
    [c_gt "trend_close_30m" "trend_open_30m"] df conditions;
  conditions ← append_if (4 <=? bullish)%Z
    [c_gt "trend_close_1h" "trend_open_1h"] df conditions;
  conditions ← append_if (5 <=? bullish)%Z
    [c_gt "trend_close_2h" "trend_open_2h"] df conditions;
  conditions ← append_if (6 <=? bullish)%Z
    [c_gt "trend_close_4h" "trend_open_4h"] df conditions;
  conditions ← append_if (7 <=? bullish)%Z
    [c_gt "trend_close_6h" "trend_open_6h"] df conditions;
  conditions ← append_if (8 <=? bullish)%Z
    [c_gt "trend_close_8h" "trend_open_8h"] df conditions;
  conditions ← append_if true
    [c_ge_c "fan_magnitude_gain" (buy_min_fan_magnitude_gain p)] df conditions;
  conditions ← append_if true [c_gt_c "fan_magnitude" 1] df conditions;
  append_shifts (buy_fan_magnitude_shift_value p) df conditions.

Definition populate_entry_trend (p : BuyParams) (dataframe : DataFrame)
    : option DataFrame :=
  conditions ← entry_conditions p dataframe;
  activate conditions "enter_long" dataframe.

Definition exit_conditions (sell_trend_indicator : string) (df : DataFrame)
    : option (list Mask) :=
  price ← df !! "trend_close_5m";
  indicator ← df !! sell_trend_indicator;
  Some ([] ++ [crossed_below price indicator]).

Definition populate_exit_trend (sell_trend_indicator : string)
    (dataframe : DataFrame) : option DataFrame :=
  conditions ← exit_conditions sell_trend_indicator dataframe;
  activate conditions "exit_long" dataframe.

End Strategy.
End IchiV1.

Module IchiV1_Fixed.
Section Strategy.
Context {L : Indicators}.

Definition buy_params : BuyParams :=
  {| buy_fan_magnitude_shift_value := 1;
     buy_min_fan_magnitude_gain := 1.001%float;
     buy_trend_above_senkou_level := 1;
     buy_trend_bullish_level := 4 |}.
Definition sell_trend_indicator : string := "trend_close_30m".

Definition populate_indicators := IchiV1.populate_indicators.
Definition populate_entry_trend := IchiV1.populate_entry_trend buy_params.
Definition populate_exit_trend :=
  IchiV1.populate_exit_trend sell_trend_indicator.

End Strategy.
End IchiV1_Fixed.

Module IchiV1_Optimizable.
Section Strategy.
Context {L : Indicators}.

(* The defaults of the hyperopt parameters; an optimizer may assign any
   value of their ranges before a call. *)
Definition default_params : BuyParams :=
  {| buy_fan_magnitude_shift_value := 3;
     buy_min_fan_magnitude_gain := 1.002%float;
     buy_trend_above_senkou_level := 1;
     buy_trend_bullish_level := 6 |}.
Definition default_sell_trend_indicator : string := "trend_close_30m".

Definition populate_indicators := IchiV1.populate_indicators.
Definition populate_entry_trend (value : BuyParams) :=
  IchiV1.populate_entry_trend value.
Definition populate_exit_trend (value : string) :=
  IchiV1.populate_exit_trend value.

End Strategy.
End IchiV1_Optimizable.

(** ** The IchiV1 conditions as one list

    The expressions [IchiV1.entry_conditions] appends, in order, as a
    function of the parameters; [entry_conditions_eq] below shows that the
    function evaluates exactly this list. *)
Definition when (guard : bool) (cs : list Cond) : list Cond :=
  if guard then cs else [].

Definition senkou (t : string) : list Cond :=
  [c_gt t "senkou_a"; c_gt t "senkou_b"].

Definition entry_exprs (p : BuyParams) : list Cond :=
  let above := buy_trend_above_senkou_level p in
  let bullish := buy_trend_bullish_level p in
  ((((((((((((((((((([]
  ++ when (1 <=? above)%Z (senkou "trend_close_5m"))
  ++ when (2 <=? above)%Z (senkou "trend_close_15m"))
  ++ when (3 <=? above)%Z (senkou "trend_close_30m"))
  ++ when (4 <=? above)%Z (senkou "trend_close_1h"))
  ++ when (5 <=? above)%Z (senkou "trend_close_2h"))
  ++ when (6 <=? above)%Z (senkou "trend_close_4h"))
  ++ when (7 <=? above)%Z (senkou "trend_close_6h"))
  ++ when (8 <=? above)%Z (senkou "trend_close_8h"))
  ++ when (1 <=? bullish)%Z [c_gt "trend_close_5m" "trend_open_5m"])
  ++ when (2 <=? bullish)%Z [c_gt "trend_close_15m" "trend_open_15m"])
  ++ when (3 <=? bullish)%Z [c_gt "trend_close_30m" "trend_open_30m"])
  ++ when (4 <=? bullish)%Z [c_gt "trend_close_1h" "trend_open_1h"])
  ++ when (5 <=? bullish)%Z [c_gt "trend_close_2h" "trend_open_2h"])
  ++ when (6 <=? bullish)%Z [c_gt "trend_close_4h" "trend_open_4h"])
  ++ when (7 <=? bullish)%Z [c_gt "trend_close_6h" "trend_open_6h"])
  ++ when (8 <=? bullish)%Z [c_gt "trend_close_8h" "trend_open_8h"])
  ++ when true [c_ge_c "fan_magnitude_gain" (buy_min_fan_magnitude_gain p)])
  ++ when true [c_gt_c "fan_magnitude" 1])
  ++ ((λ x, c_shift_lt "fan_magnitude" (x + 1))
        <$> seq 0 (Z.to_nat (buy_fan_magnitude_shift_value p)))).

Definition eval (df : DataFrame) (c : Cond) : option Mask := c df.

(** [weaker p p']: the three level parameters of [p] are at most those of
    [p'], and the minimum gain is the same. *)
Definition weaker (p p' : BuyParams) : Prop :=
  (buy_trend_above_senkou_level p ≤ buy_trend_above_senkou_level p')%Z
  ∧ (buy_trend_bullish_level p ≤ buy_trend_bullish_level p')%Z
  ∧ (buy_fan_magnitude_shift_value p ≤ buy_fan_magnitude_shift_value p')%Z
  ∧ buy_min_fan_magnitude_gain p = buy_min_fan_magnitude_gain p'.

(** ** What a signal function may do to a frame

    [marks mask flag df df']: [df'] is [df] with the [flag] column assigned
    1 on the rows of [mask] that are true and nothing else changed. A row
    where the mask is false keeps the cell it had before, which is missing
    (NaN) when the column did not exist; no other value is ever written. *)
Definition prior (df : DataFrame) (flag : string) (i : nat) : option float :=
  match df !! flag with
  | Some old => old !! i
  | None => Some NaN
  end.

Definition marks (mask : Mask) (flag : string) (df df' : DataFrame) : Prop :=
  (∀ c : string, c ≠ flag → df' !! c = df !! c)
  ∧ (∀ i, cell df' flag i
          = m ← mask !! i; o ← prior df flag i;
            Some (if m : bool then 1%float else o))
  ∧ (df !! flag = None →
     ∀ i v, cell df' flag i = Some v →
            (v = 1%float ∧ at_mask mask i = true)
            ∨ (PrimFloat.is_nan v = true ∧ at_mask mask i = false)).

Definition signal_marks (f : DataFrame → option DataFrame)
    (mask_of : DataFrame → option Mask) (flag : string) : Prop :=
  ∀ df df', f df = Some df' →
            ∃ mask, mask_of df = Some mask ∧ marks mask flag df df'.

(* The conjunction of a condition list that is not empty. *)
Definition all_of (conditions : option (list Mask)) : option Mask :=
  conds ← conditions;
  match conds with
  | [] => None
  | c :: cs => Some (foldl m_and c cs)
  end.

(* The columns the IchiV1 signal functions may read. *)
Definition ichi_columns : list string :=
  [ "trend_close_5m"; "trend_close_15m"; "trend_close_30m"; "trend_close_1h";
    "trend_close_2h"; "trend_close_4h"; "trend_close_6h"; "trend_close_8h";
    "trend_open_5m"; "trend_open_15m"; "trend_open_30m"; "trend_open_1h";
    "trend_open_2h"; "trend_open_4h"; "trend_open_6h"; "trend_open_8h";
    "senkou_a"; "senkou_b"; "fan_magnitude"; "fan_magnitude_gain" ].

(** ** Candle series *)
Record Candle := {
  c_open : float;
  c_high : float;
  c_low : float;
  c_close : float;
  c_volume : float
}.

(** The frame the host hands to the indicator stage: one column per field
    of the candles. *)
Definition frame_of_candles (cs : list Candle) : DataFrame :=
  <["open" := c_open <$> cs]>
    (<["high" := c_high <$> cs]>
      (<["low" := c_low <$> cs]>
        (<["close" := c_close <$> cs]>
          (<["volume" := c_volume <$> cs]> ∅)))).

(** ** Rows

    [has_rows df]: the frame has at least one row, so none of its columns
    is empty. [keeps_rows L]: the functions of the indicator library return
    one value per row of their input, as TA-Lib, qtpylib and technical do. *)
Definition has_rows (df : DataFrame) : Prop :=
  map_Forall (λ (_ : string) (s : Series), s ≠ []) df.

Definition keeps_rows (L : Indicators) : Prop :=
  (∀ s n, (0 < n)%nat → length (ta_SMA s n) = length s)
  ∧ (∀ s n, (0 < n)%nat → length (ta_EMA s n) = length s)
  ∧ (∀ s n, (0 < n)%nat → length (ta_RSI s n) = length s)
  ∧ (∀ s n k, (0 < n)%nat →
       length (bb_lower (bollinger_bands s n k)) = length s
       ∧ length (bb_upper (bollinger_bands s n k)) = length s)
  ∧ (∀ h l c a b d e,
       length h = length c → length l = length c →
       length (senkou_span_a (ichimoku h l c a b d e)) = length c
       ∧ length (senkou_span_b (ichimoku h l c a b d e)) = length c).

(** [reads f names]: [f] raises (KeyError) on every frame that lacks one of
    the columns [names], and returns on every frame with rows that holds
    them. *)
Definition reads (f : DataFrame → option DataFrame) (names : list string)
    : Prop :=
  ∀ df,
    (is_Some (f df) → Forall (λ n : string, is_Some (df !! n)) names)
    ∧ (has_rows df → Forall (λ n : string, is_Some (df !! n)) names →
       is_Some (f df)).

(** The columns of the frame the IchiV1 indicator stage returns, from the
    close column [c] of its input, the Heikin-Ashi candles [ha] and the
    columns it passes on. *)
Record IchiPopulated {L : Indicators} (c : Series) (ha : HeikinAshi)
    (volume enter exit : option Series) (df : DataFrame) : Prop := {
  ip_open : df !! "open" = Some (ha_open ha);
  ip_high : df !! "high" = Some (ha_high ha);
  ip_low : df !! "low" = Some (ha_low ha);
  ip_close : df !! "close" = Some c;
  ip_volume : df !! "volume" = volume;
  ip_enter : df !! "enter_long" = enter;
  ip_exit : df !! "exit_long" = exit;
  ip_close_5m : df !! "trend_close_5m" = Some c;
  ip_close_15m : df !! "trend_close_15m" = Some (ta_EMA c 3);
  ip_close_30m : df !! "trend_close_30m" = Some (ta_EMA c 6);
  ip_close_1h : df !! "trend_close_1h" = Some (ta_EMA c 12);
  ip_close_2h : df !! "trend_close_2h" = Some (ta_EMA c 24);
  ip_close_4h : df !! "trend_close_4h" = Some (ta_EMA c 48);
  ip_close_6h : df !! "trend_close_6h" = Some (ta_EMA c 72);
  ip_close_8h : df !! "trend_close_8h" = Some (ta_EMA c 96);
  ip_open_5m : df !! "trend_open_5m" = Some (ha_open ha);
  ip_open_15m : df !! "trend_open_15m" = Some (ta_EMA (ha_open ha) 3);
  ip_open_30m : df !! "trend_open_30m" = Some (ta_EMA (ha_open ha) 6);
  ip_open_1h : df !! "trend_open_1h" = Some (ta_EMA (ha_open ha) 12);
  ip_open_2h : df !! "trend_open_2h" = Some (ta_EMA (ha_open ha) 24);
  ip_open_4h : df !! "trend_open_4h" = Some (ta_EMA (ha_open ha) 48);
  ip_open_6h : df !! "trend_open_6h" = Some (ta_EMA (ha_open ha) 72);
  ip_open_8h : df !! "trend_open_8h" = Some (ta_EMA (ha_open ha) 96);
  ip_fan :
    df !! "fan_magnitude" = Some (s_div (ta_EMA c 12) (ta_EMA c 96));
  ip_gain :
    df !! "fan_magnitude_gain"
    = Some (s_div (s_div (ta_EMA c 12) (ta_EMA c 96))
                  (shift 1 (s_div (ta_EMA c 12) (ta_EMA c 96))));
  ip_senkou_a :
    df !! "senkou_a"
    = Some (senkou_span_a
              (ichimoku (ha_high ha) (ha_low ha) c 20 60 120 30));
  ip_senkou_b :
    df !! "senkou_b"
    = Some (senkou_span_b
              (ichimoku (ha_high ha) (ha_low ha) c 20 60 120 30));
  ip_atr : df !! "atr" = Some (ta_ATR (ha_high ha) (ha_low ha) c 14)
}.

(** ** A reference implementation of the indicator interface

    The textbook definitions of the indicators, with the warm-up rows
    undefined (the Bollinger bands apart, see below), to run the strategies
    on concrete candle series. The
    theorems below hold for every implementation of the interface. *)
Module Reference.

Definition of_nat (n : nat) : float :=
  PrimFloat.of_uint63 (Uint63.of_Z (Z.of_nat n)).

Definition fsum (l : Series) : float := foldl PrimFloat.add 0%float l.
Definition mean (l : Series) : float := (fsum l / of_nat (length l))%float.

(* The [n] rows that end at row [i]. *)
Definition window (n i : nat) (s : Series) : Series :=
  take n (drop (i + 1 - n) s).

Definition rolling (f : Series → float) (n : nat) (s : Series) : Series :=
  (λ i, if (i + 1 <? n)%nat then NaN else f (window n i s))
    <$> seq 0 (length s).

Definition SMA (s : Series) (n : nat) : Series := rolling mean n s.

Fixpoint ema_from (k prev : float) (s : Series) : Series :=
  match s with
  | [] => []
  | x :: rest =>
      let e := ((x - prev) * k + prev)%float in e :: ema_from k e rest
  end.

Definition EMA (s : Series) (n : nat) : Series :=
  if (length s <? n)%nat then replicate (length s) NaN
  else
    let seed := mean (take n s) in
    replicate (n - 1) NaN
      ++ seed :: ema_from (2 / of_nat (n + 1))%float seed (drop n s).

(* Wilder's smoothing of a series from a seed. *)
Fixpoint wilder (n prev : float) (s : Series) : Series :=
  match s with
  | [] => []
  | x :: rest =>
      let a := ((prev * (n - 1) + x) / n)%float in a :: wilder n a rest
  end.

Definition smoothed (s : Series) (n : nat) : Series :=
  let seed := mean (take n s) in seed :: wilder (of_nat n) seed (drop n s).

Definition RSI (s : Series) (n : nat) : Series :=
  if (length s <=? n)%nat then replicate (length s) NaN
  else
    let d := zip_with (λ prev x, (x - prev)%float) s (drop 1 s) in
    let gain := (λ x, if PrimFloat.ltb 0 x then x else 0%float) <$> d in
    let loss := (λ x, if PrimFloat.ltb x 0 then (- x)%float else 0%float) <$> d in
    replicate n NaN
      ++ zip_with (λ g l, if PrimFloat.eqb (g + l) 0 then 0%float
                          else (100 * (g / (g + l)))%float)
           (smoothed gain n) (smoothed loss n).

(* Maximum and minimum of two values, undefined when either is. *)
Definition fmax (x y : float) : float :=
  if PrimFloat.is_nan x || PrimFloat.is_nan y then NaN
  else if PrimFloat.ltb x y then y else x.

Definition fmin (x y : float) : float :=
  if PrimFloat.is_nan x || PrimFloat.is_nan y then NaN
  else if PrimFloat.ltb y x then y else x.

Definition ATR (h l c : Series) (n : nat) : Series :=
  if (length c <=? n)%nat then replicate (length c) NaN
  else
    let tr :=
      zip_with (λ hl pc,
                  fmax (fmax (hl.1 - hl.2) (PrimFloat.abs (hl.1 - pc)))
                       (PrimFloat.abs (hl.2 - pc)))%float
        (zip (drop 1 h) (drop 1 l)) c in
    replicate n NaN ++ smoothed tr n.

Definition stdev (w : Series) : float :=
  let m := mean w in
  PrimFloat.sqrt
    (fsum ((λ x, ((x - m) * (x - m))%float) <$> w) / of_nat (length w - 1)).

(* qtpylib computes the bands with [min_periods=1]: at the start of the
   series the window holds the rows there are. The deviation of a single
   row is undefined, so the outer bands start at row 1. *)
Definition rolling_from_start (f : Series → float) (n : nat) (s : Series)
    : Series :=
  (λ i, f (drop (i + 1 - n) (take (i + 1) s))) <$> seq 0 (length s).

Definition bollinger (s : Series) (n : nat) (stds : float) : Bollinger :=
  let mid := rolling_from_start mean n s in
  let dev := (λ x, (x * stds)%float) <$> rolling_from_start stdev n s in
  {| bb_upper := zip_with PrimFloat.add mid dev;
     bb_mid := mid;
     bb_lower := zip_with PrimFloat.sub mid dev |}.

Definition highest (w : Series) : float :=
  foldl fmax (default NaN (head w)) w.
Definition lowest (w : Series) : float :=
  foldl fmin (default NaN (head w)) w.
Definition midpoint (h l : Series) (n : nat) : Series :=
  zip_with avg (rolling highest n h) (rolling lowest n l).
Definition as_float (b : bool) : float := if b then 1%float else 0%float.

Definition ichimoku_cloud (h l c : Series)
    (conversion base lagging displacement : nat) : Ichimoku :=
  let tenkan := midpoint h l conversion in
  let kijun := midpoint h l base in
  let lead_a := zip_with avg tenkan kijun in
  let lead_b := midpoint h l lagging in
  let span_a := shift (displacement - 1) lead_a in
  let span_b := shift (displacement - 1) lead_b in
  {| tenkan_sen := tenkan;
     kijun_sen := kijun;
     senkou_span_a := span_a;
     senkou_span_b := span_b;
     leading_senkou_span_a := lead_a;
     leading_senkou_span_b := lead_b;
     cloud_green := as_float <$> s_gt span_a span_b;
     cloud_red := as_float <$> s_gt span_b span_a |}.

#[export] Instance indicators : Indicators := {|
  ta_SMA := SMA;
  ta_EMA := EMA;
  ta_RSI := RSI;
  ta_ATR := ATR;
  bollinger_bands := bollinger;
  ichimoku := ichimoku_cloud
|}.

End Reference.


(** ** Concrete parameters and frames

    Used below to run the signal functions on explicit inputs. *)

Definition scenario : BuyParams :=
  {| buy_fan_magnitude_shift_value := 0;
     buy_min_fan_magnitude_gain := 1.0%float;
     buy_trend_above_senkou_level := 1;
     buy_trend_bullish_level := 1 |}.

(* Two rows of an indicator-populated frame: the fan magnitude falls from 2
   to 1.5, so its gain at row 1 is 0.75. *)
Definition falling_fan : DataFrame :=
  <["trend_close_5m" := [3; 3]%float]>
    (<["trend_open_5m" := [2; 2]%float]>
      (<["senkou_a" := [1; 1]%float]>
        (<["senkou_b" := [1; 1]%float]>
          (<["fan_magnitude" := [2; 1.5]%float]>
            (<["fan_magnitude_gain" := [NaN; 0.75%float]]> ∅))))).

Definition stricter : BuyParams :=
  {| buy_fan_magnitude_shift_value := 1;
     buy_min_fan_magnitude_gain := 1.0%float;
     buy_trend_above_senkou_level := 2;
     buy_trend_bullish_level := 1 |}.

(* Three rows with a rising fan magnitude. *)
Definition rising_fan : DataFrame :=
  <["trend_close_5m" := [5; 5; 5]%float]>
    (<["trend_close_15m" := [4; 4; 4]%float]>
      (<["trend_open_5m" := [2; 2; 2]%float]>
        (<["senkou_a" := [1; 1; 1]%float]>
          (<["senkou_b" := [1; 1; 1]%float]>
            (<["fan_magnitude" := [1; 1.5; 3]%float]>
              (<["fan_magnitude_gain" := [NaN; 1.5%float; 2%float]]> ∅)))))).

(* The price is above its 30m average at row 1 and below it at row 2; both
   are undefined at row 0. *)
Definition crossing : DataFrame :=
  <["trend_close_5m" := [NaN; 5%float; 3%float]]>
    (<["trend_close_30m" := [NaN; 4%float; 4%float]]> ∅).

(* One candle priced at zero, already annotated by the indicator stage. *)
Definition zero_close : DataFrame :=
  <["close" := [0]%float]>
    (<["bb_lowerband" := [0]%float]>
      (<["rsi" := [50]%float]>
        (<["volume" := [5]%float]> ∅))).

(* Two annotated candles; the first closes on its lower Bollinger band. *)
Definition dip : DataFrame :=
  <["close" := [1; 1]%float]>
    (<["bb_lowerband" := [1; 0.5]%float]>
      (<["bb_upperband" := [3; 3]%float]>
        (<["rsi" := [50; 50]%float]>
          (<["sma_20" := [2; 2]%float]>
            (<["volume" := [10; 10]%float]>
              (<["volume_sma" := [50; 50]%float]> ∅)))))).

(* One candle: open 1, high 3, low 0, close 2, volume 10. *)
Definition one_candle : list Candle :=
  [ {| c_open := 1; c_high := 3; c_low := 0; c_close := 2; c_volume := 10 |} ].

(* Two candles: (open 1, high 3, low 0, close 2) and
   (open 3, high 5, low 2, close 4). *)
Definition two_candles : list Candle :=
  [ {| c_open := 1; c_high := 3; c_low := 0; c_close := 2; c_volume := 10 |};
    {| c_open := 3; c_high := 5; c_low := 2; c_close := 4; c_volume := 10 |} ].

(** ** The three stages in sequence

    The host runs the indicator stage on the candle frame, then the entry
    and the exit signal functions on its result. *)
Definition run (indicators entry exit : DataFrame → option DataFrame)
    (cs : list Candle) : option DataFrame :=
  df ← indicators (frame_of_candles cs); df ← entry df; exit df.

(* The choices of the [sell_trend_indicator] parameter. *)
Definition sell_options : list string :=
  [ "trend_close_5m"; "trend_close_15m"; "trend_close_30m"; "trend_close_1h";
    "trend_close_2h"; "trend_close_4h"; "trend_close_6h"; "trend_close_8h" ].

Definition flat (price volume : float) : Candle :=
  {| c_open := price; c_high := price; c_low := price; c_close := price;
     c_volume := volume |}.

(* Twenty candles: nineteen at price 2 with volume 1, then one that closes
   at 1 with volume 100. *)
Definition candles20 : list Candle :=
  replicate 19 (flat 2 1)
  ++ [ {| c_open := 2; c_high := 2; c_low := 1; c_close := 1;
          c_volume := 100 |} ].

(* Eight candles: six at price 10, one at 12, one at 5. *)
Definition candles8 : list Candle :=
  replicate 6 (flat 10 1) ++ [flat 12 1; flat 5 1].

(* Ninety-seven candles: ninety-six at price 10, then one at 20. *)
Definition candles97 : list Candle :=
  replicate 96 (flat 10 1) ++ [flat 20 1].

(** ** The IchiV1 entry, row by row

    [entry_at p df i] reads the entry condition of row [i] off the frame:
    the [buy_trend_above_senkou_level] fastest close averages are above
    both cloud boundaries, the [buy_trend_bullish_level] fastest close
    averages are above their open averages, the fan magnitude gain reaches
    the minimum, the fan magnitude exceeds 1 and exceeds its value at each
    of the [buy_fan_magnitude_shift_value] previous rows. *)
Definition trend_close_columns : list string :=
  [ "trend_close_5m"; "trend_close_15m"; "trend_close_30m"; "trend_close_1h";
    "trend_close_2h"; "trend_close_4h"; "trend_close_6h"; "trend_close_8h" ].

Definition trend_open_columns : list string :=
  [ "trend_open_5m"; "trend_open_15m"; "trend_open_30m"; "trend_open_1h";
    "trend_open_2h"; "trend_open_4h"; "trend_open_6h"; "trend_open_8h" ].

Definition above_cloud (df : DataFrame) (i : nat) (t : string) : bool :=
  fgt (value df t i) (value df "senkou_a" i)
  && fgt (value df t i) (value df "senkou_b" i).

Definition bullish (df : DataFrame) (i : nat) (tu : string * string) : bool :=
  fgt (value df tu.1 i) (value df tu.2 i).

Definition fan_rising (df : DataFrame) (i x : nat) : bool :=
  (x + 1 <=? i)%nat
  && flt (value df "fan_magnitude" (i - (x + 1)))
         (value df "fan_magnitude" i).

Definition entry_at (p : BuyParams) (df : DataFrame) (i : nat) : bool :=
  forallb (above_cloud df i)
    (take (Z.to_nat (buy_trend_above_senkou_level p)) trend_close_columns)
  && forallb (bullish df i)
       (take (Z.to_nat (buy_trend_bullish_level p))
          (zip trend_close_columns trend_open_columns))
  && fge (value df "fan_magnitude_gain" i) (buy_min_fan_magnitude_gain p)
  && fgt (value df "fan_magnitude" i) 1
  && forallb (fan_rising df i)
       (seq 0 (Z.to_nat (buy_fan_magnitude_shift_value p))).

(* The value of a condition at a row; false when the condition raised. *)
Definition cond_at (df : DataFrame) (i : nat) (c : Cond) : bool :=
  from_option (λ m : Mask, at_mask m i) false (c df).

(* A frame with every column the IchiV1 signals read: prices above the
   cloud and above their open averages, and a rising fan magnitude, on five rows. *)
Definition populated : DataFrame :=
  list_to_map
    (((λ t, (t, [5; 5; 5; 5; 5]%float)) <$> trend_close_columns)
     ++ ((λ t, (t, [2; 2; 2; 2; 2]%float)) <$> trend_open_columns)
     ++ [ ("senkou_a", [1; 1; 1; 1; 1]%float);
          ("senkou_b", [1; 1; 1; 1; 1]%float);
          ("fan_magnitude", [1; 1.5; 3; 4; 5]%float);
          ("fan_magnitude_gain",
           [NaN; 1.5%float; 2%float; 1.25%float; 1.25%float]) ]).

(* The columns the Grid signal functions read. *)
Definition grid_columns : list string :=
  [ "close"; "bb_lowerband"; "bb_upperband"; "rsi"; "sma_20"; "volume";
    "volume_sma" ].

(* [populated] with two more columns, which no signal function reads. *)
Definition populated_more : DataFrame :=
  <["leading_senkou_span_a" := [9; 9; 9; 9; 9]%float]>
    (<["atr" := [7; 7; 7; 7; 7]%float]> populated).

(* One annotated candle that closes above its upper Bollinger band with an
   RSI of 80. *)
Definition peak : DataFrame :=
  <["close" := [4]%float]>
    (<["bb_lowerband" := [1]%float]>
      (<["bb_upperband" := [3]%float]>
        (<["rsi" := [80]%float]>
          (<["sma_20" := [2]%float]>
            (<["volume" := [10]%float]>
              (<["volume_sma" := [5]%float]> ∅)))))).
(** * Properties *)

(** ** Facts about binary64 comparisons and NaN *)
Section FloatFacts.

Lemma is_nan_spec (x : float) :
  PrimFloat.is_nan x = true ↔ Prim2SF x = S754_nan.
Proof.
  unfold PrimFloat.is_nan. rewrite FloatAxioms.eqb_spec. unfold SFeqb.
  destruct (Prim2SF x) as [[]|[]| |[] m e]; simpl;
    rewrite ?Z.compare_refl, ?Pos.compare_cont_refl; simpl;
    split; intros ?; congruence.
Qed.

Lemma SFcompare_nan_r (x : spec_float) : SFcompare x S754_nan = None.
Proof. by destruct x. Qed.

Lemma ltb_nan_l (x y : float) :
  PrimFloat.is_nan x = true → PrimFloat.ltb x y = false.
Proof.
  intros H%is_nan_spec. rewrite FloatAxioms.ltb_spec. unfold SFltb. by rewrite H.
Qed.

Lemma ltb_nan_r (x y : float) :
  PrimFloat.is_nan y = true → PrimFloat.ltb x y = false.
Proof.
  intros H%is_nan_spec. rewrite FloatAxioms.ltb_spec. unfold SFltb.
  by rewrite H, SFcompare_nan_r.
Qed.

Lemma leb_nan_l (x y : float) :
  PrimFloat.is_nan x = true → PrimFloat.leb x y = false.
Proof.
  intros H%is_nan_spec. rewrite FloatAxioms.leb_spec. unfold SFleb. by rewrite H.
Qed.

Lemma leb_nan_r (x y : float) :
  PrimFloat.is_nan y = true → PrimFloat.leb x y = false.
Proof.
  intros H%is_nan_spec. rewrite FloatAxioms.leb_spec. unfold SFleb.
  by rewrite H, SFcompare_nan_r.
Qed.

Lemma div_nan_r (x y : float) :
  PrimFloat.is_nan y = true → PrimFloat.is_nan (x / y) = true.
Proof.
  intros H%is_nan_spec. apply is_nan_spec. rewrite FloatAxioms.div_spec, H.
  unfold SF64div, SFdiv. by destruct (Prim2SF x).
Qed.

Lemma SFcompare_antisym (x y : spec_float) :
  SFcompare y x = option_map CompOpp (SFcompare x y).
Proof.
  destruct x as [s1|s1| |s1 m1 e1], y as [s2|s2| |s2 m2 e2];
    simpl; try reflexivity;
    try (by destruct s1); try (by destruct s2);
    try (by destruct s1, s2).
  destruct s1, s2; simpl; try reflexivity.
  - rewrite (Z.compare_antisym e1 e2).
    destruct (e1 ?= e2)%Z; simpl; try reflexivity.
    by rewrite (Pos.compare_cont_antisym m1 m2 Eq).
  - rewrite (Z.compare_antisym e1 e2).
    destruct (e1 ?= e2)%Z; simpl; try reflexivity.
    by rewrite (Pos.compare_cont_antisym m1 m2 Eq).
Qed.

Lemma leb_ltb_false (x y : float) :
  PrimFloat.leb x y = true → PrimFloat.ltb y x = false.
Proof.
  rewrite FloatAxioms.leb_spec, FloatAxioms.ltb_spec. unfold SFleb, SFltb.
  rewrite (SFcompare_antisym (Prim2SF x) (Prim2SF y)).
  by destruct (SFcompare (Prim2SF x) (Prim2SF y)) as [[]|].
Qed.

Lemma nan_eq (x : float) : PrimFloat.is_nan x = true → x = NaN.
Proof.
  intros H%is_nan_spec. rewrite <- (FloatAxioms.SF2Prim_Prim2SF x), H.
  reflexivity.
Qed.

Lemma div_nan_l (x y : float) :
  PrimFloat.is_nan x = true → PrimFloat.is_nan (x / y) = true.
Proof.
  intros H%is_nan_spec. apply is_nan_spec. rewrite FloatAxioms.div_spec, H.
  reflexivity.
Qed.

End FloatFacts.

(** ** The stop-loss hook *)

(** C2, as stated, fails for GridStrategyV2: the class defines no
    [custom_stoploss], so at a running profit of 0.015, which exceeds 0.01,
    the hook it inherits answers the static -0.06 and not -0.02. *)
Lemma custom_stoploss_v2_not_tightened :
  fgt 0.015 0.01 = true
  ∧ GridStrategyV2.custom_stoploss "BTC/USDT" tt 0 1 0.015 = (-0.06)%float
  ∧ PrimFloat.eqb
      (GridStrategyV2.custom_stoploss "BTC/USDT" tt 0 1 0.015) (-0.02) = false.
Proof. repeat split; reflexivity. Qed.

(** C2 (amended): the hook of GridStrategy is two-tier in the running
    profit, -0.02 above 0.01 and the configured stop-loss -0.05 at or below
    it, whatever the pair, trade, time and rate; GridStrategyV2 defines no
    hook and answers its static stop-loss -0.06 at every profit. *)
Theorem custom_stoploss_two_tier {Trade : Type} (pair : string)
    (trade : Trade) (current_time : Z) (current_rate current_profit : float) :
  (fgt current_profit 0.01 = true →
     GridStrategy.custom_stoploss pair trade current_time current_rate
       current_profit = (-0.02)%float)
  ∧ (fle current_profit 0.01 = true →
     GridStrategy.custom_stoploss pair trade current_time current_rate
       current_profit = GridStrategy.stoploss)
  ∧ GridStrategy.stoploss = (-0.05)%float
  ∧ GridStrategyV2.custom_stoploss pair trade current_time current_rate
      current_profit = (-0.06)%float.
Proof.
  unfold GridStrategy.custom_stoploss, fgt, fle. repeat split.
  - by intros ->.
  - by intros ->%leb_ltb_false.
Qed.

Lemma custom_stoploss_two_tier_witness :
  GridStrategy.custom_stoploss "BTC/USDT" tt 0 1 0.015 = (-0.02)%float
  ∧ GridStrategy.custom_stoploss "BTC/USDT" tt 0 1 0.005 = (-0.05)%float.
Proof.
  split.
  - exact (proj1 (custom_stoploss_two_tier "BTC/USDT" tt 0 1 0.015) eq_refl).
  - exact (proj1 (proj2 (custom_stoploss_two_tier "BTC/USDT" tt 0 1 0.005))
             eq_refl).
Defined.

(** ** Masks and series, row by row *)
Section Rows.
Implicit Types (a b : Series) (m : Mask) (i : nat) (c : float).

Lemma at_mask_and (m1 m2 : Mask) i :
  at_mask (m_and m1 m2) i = at_mask m1 i && at_mask m2 i.
Proof.
  unfold at_mask, m_and. rewrite lookup_zip_with.
  destruct (m1 !! i) as [x|], (m2 !! i) as [y|]; simpl; try done.
  by rewrite andb_false_r.
Qed.

Lemma at_mask_foldl_and (ms : list Mask) (m : Mask) i :
  at_mask (foldl m_and m ms) i
  = at_mask m i && forallb (λ m' : Mask, at_mask m' i) ms.
Proof.
  revert m. induction ms as [|m' ms IH]; intros m; simpl.
  - by rewrite andb_true_r.
  - by rewrite IH, at_mask_and, andb_assoc.
Qed.

Lemma at_mask_zip (f : float → float → bool) a b i :
  (∀ x, f NaN x = false) → (∀ x, f x NaN = false) →
  at_mask (zip_with f a b) i = f (row a i) (row b i).
Proof.
  intros Hl Hr. unfold at_mask, row. rewrite lookup_zip_with.
  destruct (a !! i) as [x|], (b !! i) as [y|]; simpl; by rewrite ?Hl, ?Hr.
Qed.

Lemma at_mask_s_gt a b i : at_mask (s_gt a b) i = fgt (row a i) (row b i).
Proof.
  apply at_mask_zip; intros x; unfold fgt;
    [apply ltb_nan_r | apply ltb_nan_l]; reflexivity.
Qed.

Lemma at_mask_fmap (f : float → bool) a i :
  f NaN = false → at_mask (f <$> a) i = f (row a i).
Proof.
  intros H. unfold at_mask, row. rewrite list_lookup_fmap.
  by destruct (a !! i).
Qed.

Lemma at_mask_s_gt_c a c i : at_mask (s_gt_c a c) i = fgt (row a i) c.
Proof. apply (at_mask_fmap (λ x, fgt x c)). by apply ltb_nan_r. Qed.

Lemma at_mask_s_ge_c a c i : at_mask (s_ge_c a c) i = fge (row a i) c.
Proof. apply (at_mask_fmap (λ x, fge x c)). by apply leb_nan_r. Qed.

(** Comparisons with an undefined operand are false. *)
Lemma fgt_nan (x y : float) :
  PrimFloat.is_nan x = true ∨ PrimFloat.is_nan y = true → fgt x y = false.
Proof. intros [H|H]; unfold fgt; [by apply ltb_nan_r | by apply ltb_nan_l]. Qed.

Lemma flt_nan (x y : float) :
  PrimFloat.is_nan x = true ∨ PrimFloat.is_nan y = true → flt x y = false.
Proof. intros [H|H]; unfold flt; [by apply ltb_nan_l | by apply ltb_nan_r]. Qed.

Lemma fge_nan (x y : float) :
  PrimFloat.is_nan x = true ∨ PrimFloat.is_nan y = true → fge x y = false.
Proof. intros [H|H]; unfold fge; [by apply leb_nan_r | by apply leb_nan_l]. Qed.

Lemma length_shift n a : length (shift n a) = length a.
Proof. unfold shift. rewrite length_take, length_app. lia. Qed.

Lemma lookup_shift_0 a x :
  a !! 0 = Some x → shift 1 a !! 0 = Some NaN.
Proof. by destruct a. Qed.

Lemma lookup_shift_S a i x :
  a !! S i = Some x → shift 1 a !! S i = a !! i.
Proof.
  intros H. unfold shift. apply lookup_lt_Some in H.
  by rewrite lookup_take_lt by lia.
Qed.

Lemma row_shift n a i :
  i < length a →
  row (shift n a) i = if (n <=? i)%nat then row a (i - n) else NaN.
Proof.
  intros Hi. unfold row, shift. rewrite lookup_take_lt by done.
  destruct (Nat.leb_spec n i).
  - rewrite lookup_app_r by (rewrite length_replicate; lia).
    by rewrite length_replicate.
  - rewrite lookup_app_l by (rewrite length_replicate; lia).
    by rewrite lookup_replicate_2 by lia.
Qed.

Lemma row_outside a i : (length a ≤ i)%nat → row a i = NaN.
Proof. intros H. unfold row. by rewrite lookup_ge_None_2. Qed.

Lemma row_s_div a b i : row (s_div a b) i = (row a i / row b i)%float.
Proof.
  unfold row, s_div. rewrite lookup_zip_with.
  destruct (a !! i) as [x|]; simpl.
  - destruct (b !! i) as [y|]; simpl; [done|].
    symmetry. by apply nan_eq, div_nan_r.
  - symmetry. by apply nan_eq, div_nan_l.
Qed.

(** Series and masks with at least one row. *)
Lemma zip_with_rows {A B C} (f : A → B → C) (x : list A) (y : list B) :
  x ≠ [] → y ≠ [] → zip_with f x y ≠ [].
Proof. by destruct x, y. Qed.

Lemma fmap_rows {A B} (f : A → B) (x : list A) : x ≠ [] → f <$> x ≠ [].
Proof. by destruct x. Qed.

Lemma shift_rows n a : a ≠ [] → shift n a ≠ [].
Proof.
  intros H E. apply (f_equal length) in E. rewrite length_shift in E.
  by destruct a.
Qed.

Lemma rows_length {A} (x : list A) : x ≠ [] ↔ 0 < length x.
Proof. destruct x; simpl; split; (done || lia). Qed.

Lemma foldl_m_and_rows (ms : list Mask) m :
  m ≠ [] → Forall (λ m' : Mask, m' ≠ []) ms → foldl m_and m ms ≠ [].
Proof.
  intros Hm H. revert m Hm. induction H as [|m' ms Hm' _ IH]; intros m Hm.
  - done.
  - simpl. apply IH. by apply zip_with_rows.
Qed.

Lemma at_mask_nil i : at_mask [] i = false.
Proof. reflexivity. Qed.

End Rows.

(** ** Assigning a flag *)
Section Flags.
Implicit Types (df : DataFrame) (mask : Mask) (flag : string).

Lemma mark_rows_lookup_ne mask flag v df (c : string) :
  c ≠ flag → mark_rows mask flag v df !! c = df !! c.
Proof. intros H. unfold mark_rows. by rewrite lookup_insert_ne. Qed.

Lemma cell_mark_rows mask flag v df i :
  cell (mark_rows mask flag v df) flag i
  = match mask !! i with
    | Some true => from_option (λ old : Series, old !! i ≫= λ _, Some v)
                     (Some v) (df !! flag)
    | Some false => from_option (λ old : Series, old !! i)
                      (Some NaN) (df !! flag)
    | None => None
    end.
Proof.
  unfold cell, mark_rows. rewrite lookup_insert_eq. simpl.
  rewrite lookup_zip_with.
  destruct (mask !! i) as [[]|] eqn:Hm; simpl; try done.
  - destruct (df !! flag) as [old|]; simpl; [by destruct (old !! i)|].
    by rewrite lookup_replicate_2 by by eapply lookup_lt_Some.
  - destruct (df !! flag) as [old|]; simpl; [by destruct (old !! i)|].
    by rewrite lookup_replicate_2 by by eapply lookup_lt_Some.
Qed.

Lemma flag_set_mark_rows_fresh mask flag df i :
  df !! flag = None →
  flag_set (mark_rows mask flag 1 df) flag i = at_mask mask i.
Proof.
  intros H. unfold flag_set, at_mask. rewrite cell_mark_rows, H.
  by destruct (mask !! i) as [[]|].
Qed.

(** The assignment raises only on a frame without rows that has no such
    column yet. *)
Lemma loc_assign_Some mask flag v df df' :
  loc_assign mask flag v df = Some df' → df' = mark_rows mask flag v df.
Proof. unfold loc_assign. destruct (df !! flag), mask; congruence. Qed.

Lemma loc_assign_rows mask flag v df :
  mask ≠ [] → loc_assign mask flag v df = Some (mark_rows mask flag v df).
Proof. unfold loc_assign. by destruct (df !! flag), mask. Qed.

Lemma loc_assign_present mask flag v df :
  is_Some (df !! flag) →
  loc_assign mask flag v df = Some (mark_rows mask flag v df).
Proof. intros [s Hs]. unfold loc_assign. by rewrite Hs. Qed.

Lemma loc_assign_bind {A} mask flag v df (k : DataFrame → option A) :
  loc_assign mask flag v df ≫= k
  = match df !! flag, mask with
    | None, [] => None
    | _, _ => k (mark_rows mask flag v df)
    end.
Proof. unfold loc_assign. by destruct (df !! flag), mask. Qed.

Lemma loc_assign_lookup_ne mask flag v df df' (c : string) :
  loc_assign mask flag v df = Some df' → c ≠ flag → df' !! c = df !! c.
Proof. intros ->%loc_assign_Some. apply mark_rows_lookup_ne. Qed.

Lemma flag_after_loc_assign_fresh mask flag df i :
  df !! flag = None →
  flag_after (loc_assign mask flag 1 df) flag i
  = match mask with
    | [] => None
    | _ => Some (at_mask mask i)
    end.
Proof.
  intros H. unfold flag_after, loc_assign. rewrite H.
  destruct mask; [done|]. simpl. by rewrite flag_set_mark_rows_fresh.
Qed.

Lemma flag_after_loc_assign_rows mask flag df i :
  df !! flag = None → mask ≠ [] →
  flag_after (loc_assign mask flag 1 df) flag i = Some (at_mask mask i).
Proof.
  intros H Hm. rewrite flag_after_loc_assign_fresh by done. by destruct mask.
Qed.

Lemma flag_after_loc_assign_true mask flag df i :
  df !! flag = None →
  flag_after (loc_assign mask flag 1 df) flag i = Some true
  ↔ at_mask mask i = true.
Proof.
  intros H. rewrite flag_after_loc_assign_fresh by done.
  destruct mask as [|b mask]; [by rewrite at_mask_nil|].
  split; [by intros [= ->]|by intros ->].
Qed.

Lemma activate_lookup_ne (conds : list Mask) flag (c : string) df df' :
  activate conds flag df = Some df' → c ≠ flag → df' !! c = df !! c.
Proof.
  destruct conds; simpl; [by intros [= <-]|]. apply loc_assign_lookup_ne.
Qed.

Lemma flag_after_activate_fresh (c : Mask) (cs : list Mask) flag df i :
  df !! flag = None →
  flag_after (activate (c :: cs) flag df) flag i
  = match foldl m_and c cs with
    | [] => None
    | _ => Some (forallb (λ m : Mask, at_mask m i) (c :: cs))
    end.
Proof.
  intros H. simpl activate. rewrite flag_after_loc_assign_fresh by done.
  destruct (foldl m_and c cs) eqn:E; [done|].
  by rewrite <- E, at_mask_foldl_and.
Qed.

Lemma flag_after_activate_true (conds : list Mask) flag df i :
  df !! flag = None → conds ≠ [] →
  flag_after (activate conds flag df) flag i = Some true
  ↔ forallb (λ m : Mask, at_mask m i) conds = true.
Proof.
  intros H Hne. destruct conds as [|c cs]; [done|]. simpl activate.
  by rewrite flag_after_loc_assign_true, at_mask_foldl_and.
Qed.

Lemma bind_Some_l {A B} (x : A) (f : A → option B) : Some x ≫= f = f x.
Proof. reflexivity. Qed.

Lemma value_lookup (df : DataFrame) (name : string) (s : Series) (i : nat) :
  df !! name = Some s → value df name i = row s i.
Proof. intros H. unfold value, cell, row. by rewrite H. Qed.

Lemma flag_set_lookup (df df' : DataFrame) (flag : string) (i : nat) :
  df' !! flag = df !! flag → flag_set df' flag i = flag_set df flag i.
Proof. intros H. unfold flag_set, cell. by rewrite H. Qed.

End Flags.

(* A frame written as a sequence of inserts of columns that are not empty
   has rows. *)
Ltac frame_has_rows :=
  unfold has_rows;
  repeat (apply map_Forall_insert_2; [done|]);
  apply map_Forall_empty.

(** ** The IchiV1 entry signal *)
Section IchiEntry.

(** Both classes run the functions of [IchiV1]: the fixed one on its
    [buy_params] and [sell_params], the optimizable one on the current
    values of its parameters. *)
Lemma ichi_classes_share_signals (value : BuyParams) (indicator : string) :
  IchiV1_Fixed.populate_entry_trend
  = IchiV1.populate_entry_trend IchiV1_Fixed.buy_params
  ∧ IchiV1_Fixed.populate_exit_trend
    = IchiV1.populate_exit_trend IchiV1_Fixed.sell_trend_indicator
  ∧ IchiV1_Optimizable.populate_entry_trend value
    = IchiV1.populate_entry_trend value
  ∧ IchiV1_Optimizable.populate_exit_trend indicator
    = IchiV1.populate_exit_trend indicator.
Proof. by repeat split. Qed.


(** C1, as stated, fails: at row 1 of [falling_fan] the four comparisons of
    the claim hold, yet the entry flag is not set, because the code also
    requires fan_magnitude_gain >= buy_min_fan_magnitude_gain and the gain
    there is 0.75. *)
Lemma entry_scenario_needs_gain :
  flag_after (IchiV1.populate_entry_trend scenario falling_fan)
    "enter_long" 1 = Some false
  ∧ fgt 3 1 && fgt 3 1 && fgt 3 2 && fgt 1.5 1 = true
  ∧ s_div [2; 1.5]%float (shift 1 [2; 1.5]%float) !! 1 = Some 0.75%float.
Proof. repeat split; vm_compute; reflexivity. Qed.

(** C1 (amended): with buy_trend_above_senkou_level = 1,
    buy_trend_bullish_level = 1, buy_min_fan_magnitude_gain = 1.0 and
    buy_fan_magnitude_shift_value = 0, on a frame with at least one row
    that holds the indicator columns and no entry flag yet,
    populate_entry_trend returns a frame where the entry flag at row [i] is
    set iff trend_close_5m[i] > senkou_a[i] and trend_close_5m[i] >
    senkou_b[i] and trend_close_5m[i] > trend_open_5m[i] and
    fan_magnitude_gain[i] >= 1.0 and fan_magnitude[i] > 1. *)
Theorem entry_scenario_flag (df : DataFrame)
    (close5 open5 senkou_a senkou_b fan gain : Series) :
  has_rows df →
  df !! "trend_close_5m" = Some close5 →
  df !! "trend_open_5m" = Some open5 →
  df !! "senkou_a" = Some senkou_a →
  df !! "senkou_b" = Some senkou_b →
  df !! "fan_magnitude" = Some fan →
  df !! "fan_magnitude_gain" = Some gain →
  df !! "enter_long" = None →
  ∃ df',
    IchiV1.populate_entry_trend scenario df = Some df'
    ∧ ∀ i, flag_set df' "enter_long" i
           = fgt (row close5 i) (row senkou_a i)
             && fgt (row close5 i) (row senkou_b i)
             && fgt (row close5 i) (row open5 i)
             && fge (row gain i) 1.0
             && fgt (row fan i) 1.
Proof.
  intros Hrows Hc Ho Ha Hb Hf Hg Hfresh.
  unfold IchiV1.populate_entry_trend, IchiV1.entry_conditions,
    IchiV1.append_shifts, append_if, c_gt, c_ge_c, c_gt_c. simpl.
  rewrite Hc, Ha, Hb, Ho, Hg, Hf. simpl.
  rewrite loc_assign_rows.
  - eexists; split; [reflexivity|]. intros i.
    rewrite flag_set_mark_rows_fresh by done.
    rewrite !at_mask_and, !at_mask_s_gt, at_mask_s_gt_c, at_mask_s_ge_c.
    reflexivity.
  - unfold m_and, s_gt, s_gt_c, s_ge_c.
    repeat first [apply zip_with_rows | apply fmap_rows]; by eapply Hrows.
Qed.

Lemma entry_scenario_flag_witness :
  ∃ df',
    IchiV1.populate_entry_trend scenario falling_fan = Some df'
    ∧ ∀ i, flag_set df' "enter_long" i
           = fgt (row [3; 3]%float i) (row [1; 1]%float i)
             && fgt (row [3; 3]%float i) (row [1; 1]%float i)
             && fgt (row [3; 3]%float i) (row [2; 2]%float i)
             && fge (row [NaN; 0.75%float] i) 1.0
             && fgt (row [2; 1.5]%float i) 1.
Proof.
  apply (entry_scenario_flag falling_fan); [frame_has_rows|reflexivity..].
Defined.

End IchiEntry.

(** ** The IchiV1 condition list as one list of expressions *)
Section EntryConditions.


Lemma mapM_app {A B} (f : A → option B) (l k : list A) :
  mapM f (l ++ k) = a ← mapM f l; b ← mapM f k; Some (a ++ b).
Proof.
  induction l as [|x l IH]; simpl.
  - by destruct (mapM f k).
  - destruct (f x); simpl; [|done]. rewrite IH.
    destruct (mapM f l); simpl; [|done]. by destruct (mapM f k).
Qed.

Lemma append_if_bind {A} (g : bool) (cs l : list Cond) (df : DataFrame)
    (k : list Mask → option A) :
  (conditions ← mapM (eval df) l;
   conditions ← append_if g cs df conditions; k conditions)
  = mapM (eval df) (l ++ when g cs) ≫= k.
Proof.
  unfold append_if. rewrite mapM_app. destruct g; simpl.
  - destruct (mapM (eval df) l); simpl; [|done].
    fold (eval df). by destruct (mapM (eval df) cs).
  - destruct (mapM (eval df) l); simpl; [|done]. by rewrite app_nil_r.
Qed.

Lemma append_shifts_mapM (n : Z) (l : list Cond) (df : DataFrame) :
  mapM (eval df) l ≫= IchiV1.append_shifts n df
  = mapM (eval df)
      (l ++ ((λ x, c_shift_lt "fan_magnitude" (x + 1)) <$> seq 0 (Z.to_nat n))).
Proof.
  unfold IchiV1.append_shifts.
  generalize (seq 0 (Z.to_nat n)). intros xs.
  set (step := λ (acc : option (list Mask)) (x : nat),
         conditions ← acc;
         append_if true [c_shift_lt "fan_magnitude" (x + 1)] df conditions).
  assert (∀ acc : option (list Mask),
    acc ≫= (λ conditions, foldl step (Some conditions) xs)
    = foldl step acc xs) as ->.
  { intros [acc|]; [done|]. simpl. by induction xs. }
  assert (∀ l x, step (mapM (eval df) l) x
                 = mapM (eval df) (l ++ [c_shift_lt "fan_magnitude" (x + 1)]))
    as Hstep.
  { intros l' x. unfold step.
    pose proof (append_if_bind true [c_shift_lt "fan_magnitude" (x + 1)] l' df
                  Some) as E.
    assert (∀ m : option (list Mask), m ≫= Some = m) as Hid by by intros [].
    rewrite Hid in E. unfold when in E. rewrite <- E.
    destruct (mapM (eval df) l'); [|done].
    cbn [mbind option_bind]. by destruct (append_if _ _ _ _). }
  revert l. induction xs as [|x xs IH]; intros l.
  - by rewrite app_nil_r.
  - cbn [foldl fmap list_fmap]. rewrite Hstep, IH. by rewrite <- app_assoc.
Qed.

Lemma entry_conditions_eq (p : BuyParams) (df : DataFrame) :
  IchiV1.entry_conditions p df = mapM (eval df) (entry_exprs p).
Proof.
  unfold IchiV1.entry_conditions, entry_exprs.
  change (Some (@nil Mask)) with (mapM (eval df) []).
  rewrite !append_if_bind. apply append_shifts_mapM.
Qed.

End EntryConditions.

(** ** Raising a level only adds conditions *)
Section Antitone.


Lemma when_mono (g g' : bool) (cs : list Cond) :
  (g = true → g' = true) → when g cs ⊆ when g' cs.
Proof.
  intros H. destruct g; simpl; [|intros x Hx; inversion Hx].
  rewrite H; done.
Qed.

Lemma app_mono {A} (l1 l1' l2 l2' : list A) :
  l1 ⊆ l1' → l2 ⊆ l2' → l1 ++ l2 ⊆ l1' ++ l2'.
Proof. intros H1 H2 x. rewrite !elem_of_app. intros [?|?]; auto. Qed.

Lemma level_mono (k a a' : Z) :
  (a ≤ a')%Z → (k <=? a)%Z = true → (k <=? a')%Z = true.
Proof. rewrite !Z.leb_le. lia. Qed.

Lemma entry_exprs_mono (p p' : BuyParams) :
  weaker p p' → entry_exprs p ⊆ entry_exprs p'.
Proof.
  intros (Ha & Hb & Hs & Hg). unfold entry_exprs. rewrite Hg.
  apply app_mono.
  - repeat (apply app_mono;
            [|apply when_mono; first [by apply level_mono | done]]).
    done.
  - intros c (x & -> & Hx)%list_elem_of_fmap. apply list_elem_of_fmap.
    exists x. split; [done|]. rewrite elem_of_seq in *. lia.
Qed.

Lemma fan_in_entry_exprs (p : BuyParams) :
  c_gt_c "fan_magnitude" 1 ∈ entry_exprs p.
Proof.
  unfold entry_exprs. apply elem_of_app. left. apply elem_of_app. right.
  apply list_elem_of_singleton. reflexivity.
Qed.

Lemma mapM_elem_of {A B} (f : A → option B) (l : list A) (k : list B) x :
  mapM f l = Some k → x ∈ l → ∃ y, f x = Some y ∧ y ∈ k.
Proof.
  intros H%mapM_Some_1 (i & Hi)%list_elem_of_lookup.
  destruct (Forall2_lookup_l _ _ _ _ _ H Hi) as (y & Hy & Hf).
  exists y. split; [done|]. by eapply list_elem_of_lookup_2.
Qed.

Lemma mapM_subseteq {A B} (f : A → option B) (l l' : list A) (k' : list B) :
  l ⊆ l' → mapM f l' = Some k' → ∃ k, mapM f l = Some k ∧ k ⊆ k'.
Proof.
  intros Hsub H'. induction l as [|x l IH].
  - exists []. split; [done|]. intros y Hy. inversion Hy.
  - destruct IH as (k & Hk & Hkk').
    { intros y Hy. apply Hsub. by right. }
    destruct (mapM_elem_of f l' k' x H') as (y & Hy & Hyk'); [apply Hsub; by left|].
    exists (y :: k). split.
    + simpl. by rewrite Hy, Hk.
    + intros z [->|Hz]%elem_of_cons; [done|by apply Hkk'].
Qed.

Lemma entry_conditions_nonempty (p : BuyParams) (df : DataFrame) conds :
  IchiV1.entry_conditions p df = Some conds → conds ≠ [].
Proof.
  rewrite entry_conditions_eq. intros H ->.
  destruct (mapM_elem_of _ _ _ _ H (fan_in_entry_exprs p)) as (y & _ & Hy).
  inversion Hy.
Qed.

Lemma forallb_subseteq {A} (f : A → bool) (l l' : list A) :
  l ⊆ l' → forallb f l' = true → forallb f l = true.
Proof.
  rewrite !forallb_forall. intros Hsub H x Hx%list_elem_of_In.
  apply H, list_elem_of_In, Hsub, Hx.
Qed.

(** C10: the entry signal is antitone in its level parameters. If each of
    buy_trend_above_senkou_level, buy_trend_bullish_level and
    buy_fan_magnitude_shift_value of [p] is at most that of [p'] (the
    minimum gain being the same), then on a frame without an entry flag
    every row where the function runs and sets the flag under [p'] is a
    row where it runs and sets the flag under [p]. *)
Theorem entry_antitone (p p' : BuyParams) (df : DataFrame) (i : nat) :
  weaker p p' →
  df !! "enter_long" = None →
  flag_after (IchiV1.populate_entry_trend p' df) "enter_long" i = Some true →
  flag_after (IchiV1.populate_entry_trend p df) "enter_long" i = Some true.
Proof.
  intros Hw Hfresh. unfold IchiV1.populate_entry_trend.
  destruct (IchiV1.entry_conditions p' df) as [conds'|] eqn:E'; [|done].
  pose proof (entry_conditions_nonempty _ _ _ E') as Hne'.
  rewrite entry_conditions_eq in E'.
  destruct (mapM_subseteq _ _ _ _ (entry_exprs_mono _ _ Hw) E')
    as (conds & E & Hsub).
  rewrite <- entry_conditions_eq in E.
  pose proof (entry_conditions_nonempty _ _ _ E) as Hne.
  rewrite E. cbn [mbind option_bind].
  rewrite !flag_after_activate_true by done.
  by apply forallb_subseteq.
Qed.

Lemma entry_antitone_witness :
  flag_after (IchiV1.populate_entry_trend scenario rising_fan)
    "enter_long" 2 = Some true.
Proof.
  apply (entry_antitone scenario stricter rising_fan 2).
  - repeat split; done.
  - reflexivity.
  - vm_compute. reflexivity.
Defined.

End Antitone.

(** ** The IchiV1 exit signal *)
Section IchiExit.

Lemma lookup_crossed_below (price ind : Series) (i : nat) :
  at_mask (crossed_below price ind) i = crossed_below_at price ind i.
Proof.
  unfold at_mask, crossed_below. rewrite list_lookup_fmap.
  destruct (decide (i < length price)) as [Hi|Hi].
  - by rewrite lookup_seq_lt.
  - rewrite lookup_seq_ge by lia. simpl.
    destruct i as [|j]; [done|]. simpl.
    rewrite (lookup_ge_None_2 price (S j)) by lia.
    by destruct (price !! j), (ind !! j).
Qed.

Lemma crossed_below_at_rows (price ind : Series) (j : nat) :
  crossed_below_at price ind (S j)
  = fge (row price j) (row ind j) && flt (row price (S j)) (row ind (S j)).
Proof.
  unfold row. simpl.
  destruct (price !! j) as [pj|] eqn:E1; simpl;
    [|rewrite fge_nan by (by left); done].
  destruct (ind !! j) as [ij|] eqn:E2; simpl;
    [|rewrite fge_nan by (by right); done].
  destruct (price !! S j) as [pi|] eqn:E3; simpl;
    [|rewrite flt_nan by (by left); by rewrite andb_false_r].
  destruct (ind !! S j) as [ii|] eqn:E4; simpl;
    [done|rewrite flt_nan by (by right); by rewrite andb_false_r].
Qed.

Lemma crossed_below_rows (price ind : Series) :
  price ≠ [] → crossed_below price ind ≠ [].
Proof. by destruct price. Qed.

(** C6: on a frame with at least one row that holds trend_close_5m and the
    configured sell_trend_indicator column and no exit flag yet,
    populate_exit_trend returns a frame where the exit flag is set exactly
    where the price crosses below the indicator: never at row 0; at row
    [j+1] iff price[j] >= indicator[j] and price[j+1] < indicator[j+1]; and
    not at row [j+1] when any of these four values is undefined. *)
Theorem exit_flag_crosses_below (sell_trend_indicator : string)
    (df : DataFrame) (price indicator : Series) :
  has_rows df →
  df !! "trend_close_5m" = Some price →
  df !! sell_trend_indicator = Some indicator →
  df !! "exit_long" = None →
  ∃ df',
    IchiV1.populate_exit_trend sell_trend_indicator df = Some df'
    ∧ flag_set df' "exit_long" 0 = false
    ∧ (∀ j, flag_set df' "exit_long" (S j)
            = fge (row price j) (row indicator j)
              && flt (row price (S j)) (row indicator (S j)))
    ∧ (∀ j, PrimFloat.is_nan (row price j) = true
            ∨ PrimFloat.is_nan (row indicator j) = true
            ∨ PrimFloat.is_nan (row price (S j)) = true
            ∨ PrimFloat.is_nan (row indicator (S j)) = true →
            flag_set df' "exit_long" (S j) = false).
Proof.
  intros Hrows Hp Hi Hfresh.
  unfold IchiV1.populate_exit_trend, IchiV1.exit_conditions.
  rewrite Hp, Hi. simpl.
  rewrite loc_assign_rows by (apply crossed_below_rows; by eapply Hrows).
  eexists; split; [reflexivity|].
  assert (∀ i, flag_set
                 (mark_rows (crossed_below price indicator) "exit_long" 1 df)
                 "exit_long" i = crossed_below_at price indicator i) as Hflag.
  { intros i. rewrite flag_set_mark_rows_fresh by done.
    apply lookup_crossed_below. }
  split; [by rewrite Hflag|]. split.
  - intros j. by rewrite Hflag, crossed_below_at_rows.
  - intros j H. rewrite Hflag, crossed_below_at_rows.
    destruct H as [H|[H|[H|H]]].
    + by rewrite fge_nan by by left.
    + by rewrite fge_nan by by right.
    + rewrite flt_nan by (by left). apply andb_false_r.
    + rewrite flt_nan by (by right). apply andb_false_r.
Qed.

Lemma exit_flag_crosses_below_witness :
  ∃ df',
    IchiV1.populate_exit_trend "trend_close_30m" crossing = Some df'
    ∧ flag_set df' "exit_long" 0 = false
    ∧ flag_set df' "exit_long" 1 = false
    ∧ flag_set df' "exit_long" 2 = true.
Proof.
  assert (has_rows crossing) as Hcrossing by frame_has_rows.
  destruct (exit_flag_crosses_below "trend_close_30m" crossing
              [NaN; 5%float; 3%float] [NaN; 4%float; 4%float]
              Hcrossing eq_refl eq_refl eq_refl)
    as (df' & Hrun & H0 & Hrows & Hnan).
  exists df'. split; [exact Hrun|]. split; [exact H0|]. split.
  - apply Hnan. left. reflexivity.
  - rewrite Hrows. reflexivity.
Defined.

End IchiExit.

(** ** The sanity gates of the Grid entries *)
Section GridGates.

Lemma fgt_not_fle (x y : float) : fgt x y = true → fle x y = false.
Proof.
  unfold fgt, fle. intros H. destruct (PrimFloat.leb x y) eqn:E; [|done].
  apply leb_ltb_false in E. congruence.
Qed.

(** C4, as stated, fails for GridStrategyV2, whose entry is gated by
    volume > 0 only: the candle of [zero_close] closes at 0, on its lower
    band, and receives the entry flag. *)
Lemma grid_v2_entry_at_zero_close :
  flag_after (GridStrategyV2.populate_entry_trend zero_close)
    "enter_long" 0 = Some true
  ∧ fle (value zero_close "close" 0) 0 = true.
Proof. split; vm_compute; reflexivity. Qed.

(** C4 (amended): on a frame without an entry flag, GridStrategy sets the
    entry flag at a row only if close > 0 and volume > 0 there, so no row
    with close <= 0 or volume <= 0 receives it; GridStrategyV2 sets it only
    if volume > 0, so no row with volume <= 0 receives it. *)
Theorem grid_entry_gates (df : DataFrame) (i : nat) :
  df !! "enter_long" = None →
  (flag_after (GridStrategy.populate_entry_trend df) "enter_long" i
   = Some true →
   fgt (value df "close" i) 0 = true ∧ fgt (value df "volume" i) 0 = true
   ∧ fle (value df "close" i) 0 = false
   ∧ fle (value df "volume" i) 0 = false)
  ∧ (flag_after (GridStrategyV2.populate_entry_trend df) "enter_long" i
     = Some true →
     fgt (value df "volume" i) 0 = true
     ∧ fle (value df "volume" i) 0 = false).
Proof.
  intros Hfresh. split.
  - unfold GridStrategy.populate_entry_trend, GridStrategy.entry_mask.
    destruct (df !! "close") as [close|] eqn:Hc; [|done].
    destruct (df !! "bb_lowerband") as [bb|]; [|done].
    destruct (df !! "rsi") as [rsi|]; [|done].
    destruct (df !! "sma_20") as [sma|]; [|done].
    destruct (df !! "volume") as [volume|] eqn:Hv; [|done].
    destruct (df !! "volume_sma") as [vsma|]; [|done].
    cbn [mbind option_bind]. rewrite flag_after_loc_assign_true by done.
    rewrite !at_mask_and, !at_mask_s_gt_c.
    rewrite (value_lookup _ _ _ _ Hc), (value_lookup _ _ _ _ Hv).
    intros [[_ Hvol]%andb_prop Hclose]%andb_prop.
    auto using fgt_not_fle.
  - unfold GridStrategyV2.populate_entry_trend, GridStrategyV2.entry_mask.
    destruct (df !! "close") as [close|]; [|done].
    destruct (df !! "bb_lowerband") as [bb|]; [|done].
    destruct (df !! "rsi") as [rsi|]; [|done].
    destruct (df !! "volume") as [volume|] eqn:Hv; [|done].
    cbn [mbind option_bind]. rewrite flag_after_loc_assign_true by done.
    rewrite !at_mask_and, !at_mask_s_gt_c.
    rewrite (value_lookup _ _ _ _ Hv).
    intros [_ Hvol]%andb_prop.
    auto using fgt_not_fle.
Qed.

Lemma grid_entry_gates_witness :
  fgt (value dip "close" 0) 0 = true ∧ fgt (value dip "volume" 0) 0 = true
  ∧ fle (value dip "close" 0) 0 = false
  ∧ fle (value dip "volume" 0) 0 = false.
Proof.
  apply (proj1 (grid_entry_gates dip 0 eq_refl)). vm_compute. reflexivity.
Defined.

End GridGates.

(** ** Signal functions only mark *)
Section Marks.

Lemma mark_rows_marks (mask : Mask) (flag : string) (df : DataFrame) :
  marks mask flag df (mark_rows mask flag 1 df).
Proof.
  assert (∀ i, cell (mark_rows mask flag 1 df) flag i
               = m ← mask !! i; o ← prior df flag i;
                 Some (if m : bool then 1%float else o)) as Hcell.
  { intros i. rewrite cell_mark_rows. unfold prior.
    destruct (mask !! i) as [[]|]; simpl; [| |done].
    - destruct (df !! flag) as [old|]; simpl; [|done]. by destruct (old !! i).
    - destruct (df !! flag) as [old|]; simpl; [|done]. by destruct (old !! i). }
  split; [|split].
  - intros c Hc. by apply mark_rows_lookup_ne.
  - exact Hcell.
  - intros Hfresh i v. rewrite Hcell. unfold prior, at_mask. rewrite Hfresh.
    destruct (mask !! i) as [[]|]; simpl; [| |done].
    + intros [= <-]. by left.
    + intros [= <-]. by right.
Qed.

Lemma loc_assign_marks (mask : Mask) (flag : string) (df df' : DataFrame) :
  loc_assign mask flag 1 df = Some df' → marks mask flag df df'.
Proof. intros ->%loc_assign_Some. apply mark_rows_marks. Qed.


End Marks.
(** ** Running the indicator stage *)
Section IndicatorStage.
Context {L : Indicators}.

Lemma exec_cons (name : string) (e : Expr) (rest : list (string * Expr))
    (df : DataFrame) :
  exec ((name, e) :: rest) df = s ← e df; exec rest (<[name := s]> df).
Proof. simpl. unfold assign. by destruct (e df). Qed.

Lemma exec_nil (df : DataFrame) : exec [] df = Some df.
Proof. reflexivity. Qed.

End IndicatorStage.

(** Symbolic execution of an assignment sequence: the frame is kept
    abstract and described by the lookups known of it. *)
Ltac update_fact d n s H :=
  lazymatch type of H with
  | d !! ?c = ?v =>
      first
        [ unify c n; clear H
        | let H' := fresh H in
          assert ((<[n:=s]> d) !! c = v) as H'
            by (rewrite lookup_insert_ne by done; exact H);
          clear H; rename H' into H ]
  end.

Ltac update_facts d n s :=
  repeat match goal with
         | H : d !! _ = _ |- _ => update_fact d n s H
         end.

Ltac frame_lookup :=
  repeat first
    [ rewrite lookup_insert_eq
    | rewrite lookup_insert_ne by done ].

Ltac read_columns :=
  repeat match goal with
         | H : ?d !! ?c = Some _ |- context [?d !! ?c] => rewrite H
         end;
  rewrite ?bind_Some_l.

Ltac run_assign :=
  rewrite exec_cons;
  cbv beta delta [on_col on_close col const e_div e_shift e_mul_c on_hlc];
  read_columns;
  lazymatch goal with
  | |- context [exec _ (<[?n:=?s]> ?d)] =>
      update_facts d n s;
      let H := fresh "Hcol" in
      pose proof (lookup_insert_eq d n s) as H;
      let d' := fresh "d" in
      set (d' := <[n:=s]> d) in *; clearbody d'; try clear d
  end.

Section IchiIndicators.
Context {L : Indicators}.

(** The helper raises exactly on candles without rows. *)
Lemma heikinashi_of_rows (o h l c : Series) :
  o ≠ [] → c ≠ [] → is_Some (heikinashi_of o h l c).
Proof. by destruct o, c. Qed.

Lemma heikinashi_of_Some (o h l c : Series) (ha : HeikinAshi) :
  heikinashi_of o h l c = Some ha → o ≠ [] ∧ c ≠ [].
Proof. by destruct o, c. Qed.

Lemma ichi_populate_raises (df : DataFrame) (o h l c : Series) :
  df !! "open" = Some o → df !! "high" = Some h →
  df !! "low" = Some l → df !! "close" = Some c →
  heikinashi_of o h l c = None →
  IchiV1.populate_indicators df = None.
Proof.
  intros Ho Hh Hl Hc Hha. unfold IchiV1.populate_indicators, heikinashi.
  rewrite Ho, Hh, Hl, Hc. rewrite !bind_Some_l. by rewrite Hha.
Qed.

(** The indicator stage, statement by statement. *)
Lemma ichi_populate (df : DataFrame) (o h l c : Series) (ha : HeikinAshi)
    (volume enter exit : option Series) :
  df !! "open" = Some o → df !! "high" = Some h →
  df !! "low" = Some l → df !! "close" = Some c →
  df !! "volume" = volume →
  df !! "enter_long" = enter → df !! "exit_long" = exit →
  heikinashi_of o h l c = Some ha →
  ∃ df',
    IchiV1.populate_indicators df = Some df'
    ∧ IchiPopulated c ha volume enter exit df'.
Proof.
  intros Ho Hh Hl Hc Hv He Hx Hha.
  unfold IchiV1.populate_indicators, heikinashi.
  rewrite Ho, Hh, Hl, Hc. rewrite !bind_Some_l. rewrite Hha, bind_Some_l.
  do 21 run_assign. rewrite exec_nil, bind_Some_l.
  unfold on_hlc. read_columns.
  do 9 run_assign. rewrite exec_nil.
  eexists. split; [reflexivity|]. constructor; assumption.
Qed.

Lemma ichi_populated_columns (c : Series) (ha : HeikinAshi)
    (volume enter exit : option Series) (df : DataFrame) :
  IchiPopulated c ha volume enter exit df →
  Forall (λ name : string, is_Some (df !! name)) ichi_columns.
Proof.
  intros []. unfold ichi_columns. repeat constructor; by eexists.
Qed.

End IchiIndicators.

(** ** The indicator stage and the candle columns *)
Section CandleColumns.
Context {L : Indicators}.

Lemma frame_of_candles_columns (cs : list Candle) :
  frame_of_candles cs !! "open" = Some (c_open <$> cs)
  ∧ frame_of_candles cs !! "high" = Some (c_high <$> cs)
  ∧ frame_of_candles cs !! "low" = Some (c_low <$> cs)
  ∧ frame_of_candles cs !! "close" = Some (c_close <$> cs)
  ∧ frame_of_candles cs !! "volume" = Some (c_volume <$> cs)
  ∧ frame_of_candles cs !! "enter_long" = None
  ∧ frame_of_candles cs !! "exit_long" = None.
Proof.
  unfold frame_of_candles. repeat split; frame_lookup; try done.
Qed.

(** C5, as stated, fails for the IchiV1 variants: the indicator stage
    replaces the open, high and low columns by their Heikin-Ashi values. On
    the single candle (open 1, high 3, low 0, close 2) the open column of
    the result is 1.5, not 1. *)
Lemma ichi_indicators_overwrite_open :
  frame_of_candles one_candle !! "open" = Some [1%float]
  ∧ (df' ← IchiV1.populate_indicators (L := Reference.indicators)
             (frame_of_candles one_candle);
     df' !! "open") = Some [1.5%float].
Proof. split; vm_compute; reflexivity. Qed.

(** C5 (amended): for GridStrategy and GridStrategyV2 the frame the
    indicator stage returns on a frame with the five candle columns holds
    open, high, low, close and volume unchanged. For the IchiV1 variants
    every frame the stage returns holds close and volume unchanged, and
    open, high and low replaced by the Heikin-Ashi values of the candles;
    it returns one when the candles have at least one row. *)
Theorem indicators_keep_candles (df : DataFrame) (o h l c v : Series) :
  df !! "open" = Some o → df !! "high" = Some h → df !! "low" = Some l →
  df !! "close" = Some c → df !! "volume" = Some v →
  (∃ df', GridStrategy.populate_indicators df = Some df'
          ∧ df' !! "open" = Some o ∧ df' !! "high" = Some h
          ∧ df' !! "low" = Some l ∧ df' !! "close" = Some c
          ∧ df' !! "volume" = Some v)
  ∧ (∃ df', GridStrategyV2.populate_indicators df = Some df'
            ∧ df' !! "open" = Some o ∧ df' !! "high" = Some h
            ∧ df' !! "low" = Some l ∧ df' !! "close" = Some c
            ∧ df' !! "volume" = Some v)
  ∧ (∀ df', IchiV1.populate_indicators df = Some df' →
            ∃ ha, heikinashi_of o h l c = Some ha
                  ∧ df' !! "close" = Some c ∧ df' !! "volume" = Some v
                  ∧ df' !! "open" = Some (ha_open ha)
                  ∧ df' !! "high" = Some (ha_high ha)
                  ∧ df' !! "low" = Some (ha_low ha))
  ∧ (o ≠ [] → c ≠ [] → is_Some (IchiV1.populate_indicators df)).
Proof.
  intros Ho Hh Hl Hc Hv. split; [|split; [|split]].
  - unfold GridStrategy.populate_indicators.
    do 4 run_assign. rewrite exec_nil, bind_Some_l. read_columns.
    do 6 run_assign. rewrite exec_nil.
    eexists. by repeat split.
  - unfold GridStrategyV2.populate_indicators. read_columns.
    do 5 run_assign. rewrite exec_nil.
    eexists. by repeat split.
  - intros df' Hrun.
    destruct (heikinashi_of o h l c) as [ha|] eqn:Hha.
    + destruct (ichi_populate df o h l c ha _ _ _ Ho Hh Hl Hc Hv
                  eq_refl eq_refl Hha) as (df'' & Hrun' & []).
      rewrite Hrun in Hrun'. injection Hrun' as <-. by exists ha.
    + by rewrite (ichi_populate_raises df o h l c) in Hrun.
  - intros Ho' Hc'.
    destruct (heikinashi_of_rows o h l c Ho' Hc') as [ha Hha].
    destruct (ichi_populate df o h l c ha _ _ _ Ho Hh Hl Hc Hv
                eq_refl eq_refl Hha) as (df' & Hrun & _).
    by eexists.
Qed.

End CandleColumns.

Lemma indicators_keep_candles_witness :
  (∃ df',
     GridStrategy.populate_indicators (L := Reference.indicators)
       (frame_of_candles one_candle) = Some df'
     ∧ df' !! "open" = Some [1%float] ∧ df' !! "high" = Some [3%float]
     ∧ df' !! "low" = Some [0%float] ∧ df' !! "close" = Some [2%float]
     ∧ df' !! "volume" = Some [10%float])
  ∧ (∃ df',
       IchiV1.populate_indicators (L := Reference.indicators)
         (frame_of_candles one_candle) = Some df'
       ∧ df' !! "close" = Some [2%float]
       ∧ df' !! "volume" = Some [10%float]
       ∧ df' !! "open" = Some [1.5%float]).
Proof.
  destruct (indicators_keep_candles (L := Reference.indicators)
              (frame_of_candles one_candle) [1%float] [3%float] [0%float]
              [2%float] [10%float] eq_refl eq_refl eq_refl eq_refl eq_refl)
    as (Hgrid & _ & Hall & Hruns).
  split; [exact Hgrid|].
  destruct Hruns as [df' Hrun]; [done..|].
  destruct (Hall df' Hrun) as (ha & Hha & Hc & Hv & Ho & _).
  exists df'. split; [exact Hrun|]. split; [exact Hc|]. split; [exact Hv|].
  rewrite Ho. injection Hha as <-. reflexivity.
Defined.

(** ** Heikin-Ashi candles in the IchiV1 indicator stage *)
Section HeikinAshiRows.
Context {L : Indicators}.

Lemma length_ha_open_from (a : float) (closes : Series) :
  length (ha_open_from a closes) = length closes.
Proof.
  revert a. induction closes as [|c closes IH]; intros a; simpl; [done|].
  by rewrite IH.
Qed.

Lemma lookup_ha_open_from_S (a : float) (closes : Series) (i : nat)
    (x k : float) :
  ha_open_from a closes !! i = Some x → closes !! i = Some k →
  is_Some (closes !! S i) →
  ha_open_from a closes !! S i = Some (avg x k).
Proof.
  revert a i. induction closes as [|c closes IH]; intros a i; [done|].
  destruct i as [|i]; simpl.
  - intros [= <-] [= <-] [c' Hc']. by destruct closes.
  - intros Hx Hk Hc'. by apply IH.
Qed.

Lemma lookup_zip3 (f : float → float → float → float) (a b c : Series)
    (i : nat) (x y z : float) :
  a !! i = Some x → b !! i = Some y → c !! i = Some z →
  zip_with (λ u vw, f u vw.1 vw.2) a (zip b c) !! i = Some (f x y z).
Proof.
  intros Ha Hb Hc. apply lookup_zip_with_Some.
  exists x, (y, z). split; [done|]. split; [done|].
  apply lookup_zip_with_Some. by exists y, z.
Qed.

Lemma lookup_ha_close_of (o h l c : Series) (i : nat) (oi hi li ci : float) :
  o !! i = Some oi → h !! i = Some hi → l !! i = Some li →
  c !! i = Some ci →
  ha_close_of o h l c !! i = Some ((oi + hi + li + ci) / 4)%float.
Proof.
  intros Ho Hh Hl Hc. unfold ha_close_of. apply lookup_zip_with_Some.
  exists (oi, hi), (li, ci). split; [done|].
  split; apply lookup_zip_with_Some; by eexists _, _.
Qed.

(** C7, as stated, fails: the helper averages the previous smoothed open
    with the previous Heikin-Ashi close, the mean of the four prices of the
    candle, not with the previous close. On the two candles (open 1, high 3,
    low 0, close 2) and (3, 5, 2, 4) the smoothed open of row 0 is 1.5 and
    the close of row 0 is 2, whose average is 1.75, while the open column
    of the result is 1.5 at row 1. *)
Lemma heikinashi_open_uses_ha_close :
  (df' ← IchiV1.populate_indicators (L := Reference.indicators)
             (frame_of_candles two_candles);
   df' !! "open") = Some [1.5; 1.5]%float
  ∧ frame_of_candles two_candles !! "close" = Some [2; 4]%float
  ∧ avg 1.5 2 = 1.75%float
  ∧ PrimFloat.eqb 1.5 1.75 = false.
Proof. repeat split; vm_compute; reflexivity. Qed.

(** C7 (amended): on a frame with open, high, low and close columns and at
    least one row the IchiV1 indicator stage returns a frame whose close
    column is the input's and whose open, high and low columns are the
    Heikin-Ashi ones, with hc[i] = (open[i] + high[i] + low[i] + close[i]) / 4
    the Heikin-Ashi close: the open column has a row for each row of hc,
    starts at the average of open[0] and close[0] and continues, row by
    row, with the average of the previous smoothed open and the previous hc;
    the high (low) column is at each row the maximum (minimum) of the
    input's high (low), the smoothed open and hc. *)
Theorem heikinashi_columns (df : DataFrame) (o h l c : Series) :
  df !! "open" = Some o → df !! "high" = Some h →
  df !! "low" = Some l → df !! "close" = Some c →
  o ≠ [] → c ≠ [] →
  ∃ df' so sh sl,
    IchiV1.populate_indicators df = Some df'
    ∧ df' !! "open" = Some so ∧ df' !! "high" = Some sh
    ∧ df' !! "low" = Some sl ∧ df' !! "close" = Some c
    ∧ length so = length (ha_close_of o h l c)
    ∧ length sh = Nat.min (length h) (length (ha_close_of o h l c))
    ∧ length sl = Nat.min (length l) (length (ha_close_of o h l c))
    ∧ (∀ i oi hi li ci,
         o !! i = Some oi → h !! i = Some hi → l !! i = Some li →
         c !! i = Some ci →
         ha_close_of o h l c !! i = Some ((oi + hi + li + ci) / 4)%float)
    ∧ (∀ o0 c0, o !! 0 = Some o0 → c !! 0 = Some c0 →
                is_Some (ha_close_of o h l c !! 0) →
                so !! 0 = Some (avg o0 c0))
    ∧ (∀ i x k, so !! i = Some x → ha_close_of o h l c !! i = Some k →
                is_Some (ha_close_of o h l c !! S i) →
                so !! S i = Some (avg x k))
    ∧ (∀ i hi x k, h !! i = Some hi → so !! i = Some x →
                   ha_close_of o h l c !! i = Some k →
                   sh !! i = Some (max3 hi x k))
    ∧ (∀ i li x k, l !! i = Some li → so !! i = Some x →
                   ha_close_of o h l c !! i = Some k →
                   sl !! i = Some (min3 li x k)).
Proof.
  intros Ho Hh Hl Hc Ho' Hc'.
  destruct (heikinashi_of_rows o h l c Ho' Hc') as [ha Hha].
  destruct (ichi_populate df o h l c ha _ _ _ Ho Hh Hl Hc
              eq_refl eq_refl eq_refl Hha) as (df' & Hrun & []).
  exists df', (ha_open ha), (ha_high ha), (ha_low ha).
  do 5 (split; [assumption|]).
  clear - Hha. set (hc := ha_close_of o h l c) in *.
  destruct o as [|o0 o']; [done|]. destruct c as [|c0 c']; [done|].
  injection Hha as <-. cbn [ha_open ha_high ha_low].
  fold hc. repeat split.
  - apply length_ha_open_from.
  - by rewrite length_zip_with, length_zip_with, length_ha_open_from,
      Nat.min_id.
  - by rewrite length_zip_with, length_zip_with, length_ha_open_from,
      Nat.min_id.
  - intros i oi hi li ci. apply lookup_ha_close_of.
  - intros a b [= <-] [= <-] [k Hk]. by destruct hc.
  - intros i x k. apply lookup_ha_open_from_S.
  - intros i hi x k Hhi Hx Hk. by apply lookup_zip3.
  - intros i li x k Hli Hx Hk. by apply lookup_zip3.
Qed.

End HeikinAshiRows.

Lemma heikinashi_columns_witness :
  ∃ df' so sh sl,
    IchiV1.populate_indicators (L := Reference.indicators)
      (frame_of_candles two_candles) = Some df'
    ∧ df' !! "open" = Some so ∧ df' !! "high" = Some sh
    ∧ df' !! "low" = Some sl ∧ df' !! "close" = Some [2; 4]%float
    ∧ length so = 2 ∧ length sh = 2 ∧ length sl = 2
    ∧ so !! 0 = Some 1.5%float ∧ so !! 1 = Some 1.5%float
    ∧ sh !! 1 = Some 5%float ∧ sl !! 1 = Some 1.5%float.
Proof.
  destruct (heikinashi_columns (L := Reference.indicators)
              (frame_of_candles two_candles)
              [1; 3]%float [3; 5]%float [0; 2]%float [2; 4]%float
              eq_refl eq_refl eq_refl eq_refl)
    as (df' & so & sh & sl & Hrun & Ho & Hh & Hl & Hc & Lo & Lh & Ll & Hhc
        & H0 & HS & Hmax & Hmin); [done..|].
  exists df', so, sh, sl.
  pose proof (Hhc 0 _ _ _ _ eq_refl eq_refl eq_refl eq_refl) as Hhc0.
  pose proof (Hhc 1 _ _ _ _ eq_refl eq_refl eq_refl eq_refl) as Hhc1.
  pose proof (H0 _ _ eq_refl eq_refl (mk_is_Some _ _ Hhc0)) as Hso0.
  pose proof (HS 0 _ _ Hso0 Hhc0 (mk_is_Some _ _ Hhc1)) as Hso1.
  repeat split; try assumption.
  - exact (Hmax 1 _ _ _ eq_refl Hso1 Hhc1).
  - exact (Hmin 1 _ _ _ eq_refl Hso1 Hhc1).
Defined.

(** ** Fan magnitude and its gain *)
Section FanMagnitude.
Context {L : Indicators}.

Lemma length_gain (fan : Series) :
  length (s_div fan (shift 1 fan)) = length fan.
Proof. unfold s_div. rewrite length_zip_with, length_shift. lia. Qed.

Lemma row_gain_0 (fan : Series) :
  PrimFloat.is_nan (row (s_div fan (shift 1 fan)) 0) = true.
Proof. rewrite row_s_div. apply div_nan_r. by destruct fan. Qed.

Lemma row_gain_S (fan : Series) (i : nat) :
  row (s_div fan (shift 1 fan)) (S i) = (row fan (S i) / row fan i)%float.
Proof.
  rewrite row_s_div. destruct (decide (S i < length fan)) as [Hi|Hi].
  - rewrite row_shift by done. simpl. by rewrite Nat.sub_0_r.
  - rewrite (row_outside fan (S i)) by lia.
    rewrite (nan_eq (NaN / row (shift 1 fan) (S i))) by by apply div_nan_l.
    symmetry. by apply nan_eq, div_nan_l.
Qed.

(** C8: on a frame with open, high, low and close columns and at least one
    row the IchiV1 indicator stage returns a frame where trend_close_1h and
    trend_close_8h are the EMAs of the close over 12 and 96 rows,
    fan_magnitude is, row by row, trend_close_1h divided by trend_close_8h,
    and fan_magnitude_gain has the rows of fan_magnitude, is undefined at
    row 0, and at each later row [i+1] is fan_magnitude[i+1] divided by
    fan_magnitude[i]. *)
Theorem fan_magnitude_gain_rows (df : DataFrame) (o h l c : Series) :
  df !! "open" = Some o → df !! "high" = Some h →
  df !! "low" = Some l → df !! "close" = Some c →
  o ≠ [] → c ≠ [] →
  let fan := s_div (ta_EMA c 12) (ta_EMA c 96) in
  ∃ df',
    IchiV1.populate_indicators df = Some df'
    ∧ df' !! "trend_close_1h" = Some (ta_EMA c 12)
    ∧ df' !! "trend_close_8h" = Some (ta_EMA c 96)
    ∧ df' !! "fan_magnitude" = Some fan
    ∧ df' !! "fan_magnitude_gain" = Some (s_div fan (shift 1 fan))
    ∧ length (s_div fan (shift 1 fan)) = length fan
    ∧ (∀ i, value df' "fan_magnitude" i
            = (value df' "trend_close_1h" i
               / value df' "trend_close_8h" i)%float)
    ∧ PrimFloat.is_nan (value df' "fan_magnitude_gain" 0) = true
    ∧ (∀ i, value df' "fan_magnitude_gain" (S i)
            = (value df' "fan_magnitude" (S i)
               / value df' "fan_magnitude" i)%float).
Proof.
  intros Ho Hh Hl Hc Ho' Hc' fan.
  destruct (heikinashi_of_rows o h l c Ho' Hc') as [ha Hha].
  destruct (ichi_populate df o h l c ha _ _ _ Ho Hh Hl Hc
              eq_refl eq_refl eq_refl Hha) as (df' & Hrun & Hp).
  pose proof (ip_close_1h _ _ _ _ _ _ Hp) as H1h.
  pose proof (ip_close_8h _ _ _ _ _ _ Hp) as H8h.
  pose proof (ip_fan _ _ _ _ _ _ Hp) as Hfan.
  pose proof (ip_gain _ _ _ _ _ _ Hp) as Hgain.
  exists df'. do 5 (split; [assumption|]). split; [apply length_gain|].
  repeat split.
  - intros i.
    rewrite (value_lookup _ _ _ _ Hfan), (value_lookup _ _ _ _ H1h),
      (value_lookup _ _ _ _ H8h).
    apply row_s_div.
  - rewrite (value_lookup _ _ _ _ Hgain). apply row_gain_0.
  - intros i. rewrite (value_lookup _ _ _ _ Hgain),
      !(value_lookup _ _ _ _ Hfan).
    apply row_gain_S.
Qed.

End FanMagnitude.

Lemma fan_magnitude_gain_rows_witness :
  ∃ df',
    IchiV1.populate_indicators (L := Reference.indicators)
      (frame_of_candles candles97) = Some df'
    ∧ value df' "trend_close_1h" 95 = 10%float
    ∧ value df' "trend_close_8h" 95 = 10%float
    ∧ value df' "fan_magnitude" 95 = 1%float
    ∧ fgt (value df' "fan_magnitude" 96) 1 = true
    ∧ PrimFloat.is_nan (value df' "fan_magnitude" 94) = true
    ∧ PrimFloat.is_nan (value df' "fan_magnitude_gain" 0) = true
    ∧ value df' "fan_magnitude_gain" 96
      = (value df' "fan_magnitude" 96 / value df' "fan_magnitude" 95)%float.
Proof.
  destruct (frame_of_candles_columns candles97)
    as (Ho & Hh & Hl & Hc & _).
  destruct (fan_magnitude_gain_rows (L := Reference.indicators)
              (frame_of_candles candles97) _ _ _ _ Ho Hh Hl Hc)
    as (df' & Hrun & H1h & H8h & Hfan & Hgain & _ & _ & Hg0 & HgS);
    [by vm_compute..|].
  exists df'. split; [exact Hrun|].
  split; [rewrite (value_lookup _ _ _ _ H1h); vm_compute; reflexivity|].
  split; [rewrite (value_lookup _ _ _ _ H8h); vm_compute; reflexivity|].
  split; [rewrite (value_lookup _ _ _ _ Hfan); vm_compute; reflexivity|].
  split; [rewrite (value_lookup _ _ _ _ Hfan); vm_compute; reflexivity|].
  split; [rewrite (value_lookup _ _ _ _ Hfan); vm_compute; reflexivity|].
  split; [exact Hg0|apply HgS].
Defined.
(** ** The IchiV1 entry, row by row *)
Ltac in_columns :=
  unfold ichi_columns;
  repeat first [by apply list_elem_of_here | apply list_elem_of_further].

Section EntryRows.

Lemma mapM_forallb {A B} (f : A → option B) (g : B → bool) (l : list A)
    (k : list B) :
  mapM f l = Some k →
  forallb g k = forallb (λ x, from_option g false (f x)) l.
Proof.
  revert k. induction l as [|x l IH]; intros k; simpl.
  - by intros [= <-].
  - destruct (f x) as [y|]; [|done]. simpl.
    destruct (mapM f l) as [k'|]; [|done]. simpl.
    intros [= <-]. simpl. by rewrite (IH k').
Qed.

Lemma at_mask_s_lt' (a b : Series) (i : nat) :
  at_mask (s_lt a b) i = flt (row a i) (row b i).
Proof.
  apply at_mask_zip; intros x; unfold flt;
    [apply ltb_nan_l | apply ltb_nan_r]; reflexivity.
Qed.

Lemma cond_at_c_gt (df : DataFrame) (i : nat) (a b : string) :
  cond_at df i (c_gt a b) = fgt (value df a i) (value df b i).
Proof.
  unfold cond_at, c_gt, value, cell.
  destruct (df !! a) as [x|]; simpl.
  - destruct (df !! b) as [y|]; simpl; [apply at_mask_s_gt|].
    symmetry. apply fgt_nan. by right.
  - symmetry. apply fgt_nan. by left.
Qed.

Lemma cond_at_c_gt_c (df : DataFrame) (i : nat) (a : string) (c : float) :
  cond_at df i (c_gt_c a c) = fgt (value df a i) c.
Proof.
  unfold cond_at, c_gt_c, value, cell.
  destruct (df !! a) as [x|]; simpl; [apply at_mask_s_gt_c|].
  symmetry. apply fgt_nan. by left.
Qed.

Lemma cond_at_c_ge_c (df : DataFrame) (i : nat) (a : string) (c : float) :
  cond_at df i (c_ge_c a c) = fge (value df a i) c.
Proof.
  unfold cond_at, c_ge_c, value, cell.
  destruct (df !! a) as [x|]; simpl; [apply at_mask_s_ge_c|].
  symmetry. apply fge_nan. by left.
Qed.

Lemma cond_at_c_shift_lt (df : DataFrame) (i x : nat) :
  cond_at df i (c_shift_lt "fan_magnitude" (x + 1)) = fan_rising df i x.
Proof.
  unfold cond_at, c_shift_lt, fan_rising, value, cell.
  destruct (df !! "fan_magnitude") as [fan|]; simpl.
  - rewrite at_mask_s_lt'.
    destruct (decide (i < length fan)) as [Hi|Hi].
    + rewrite row_shift by done. unfold row.
      destruct (x + 1 <=? i)%nat; [done|]. apply flt_nan. by left.
    + rewrite (flt_nan _ (row fan i)).
      * symmetry. rewrite flt_nan; [apply andb_false_r|].
        right. unfold row. by rewrite lookup_ge_None_2 by lia.
      * right. unfold row. by rewrite lookup_ge_None_2 by lia.
  - symmetry. rewrite flt_nan; [apply andb_false_r|]. by left.
Qed.

Lemma forallb_when (h : Cond → bool) (g : bool) (cs : list Cond) :
  forallb h (when g cs) = implb g (forallb h cs).
Proof. by destruct g. Qed.

Lemma forallb_take_fmap {A} (h : A → bool) (n : nat) (l : list A) :
  forallb h (take n l) = forallb id (take n (h <$> l)).
Proof.
  revert n. induction l as [|x l IH]; intros [|n]; simpl; try done.
  f_equal. apply IH.
Qed.

Lemma forallb_fmap {A B} (f : A → B) (h : B → bool) (l : list A) :
  forallb h (f <$> l) = forallb (h ∘ f) l.
Proof. induction l as [|x l IH]; simpl; [done|]. f_equal. exact IH. Qed.

Lemma level_guards (a : Z) (b1 b2 b3 b4 b5 b6 b7 b8 : bool) :
  implb (1 <=? a)%Z b1 && implb (2 <=? a)%Z b2 && implb (3 <=? a)%Z b3
  && implb (4 <=? a)%Z b4 && implb (5 <=? a)%Z b5 && implb (6 <=? a)%Z b6
  && implb (7 <=? a)%Z b7 && implb (8 <=? a)%Z b8
  = forallb id (take (Z.to_nat a) [b1; b2; b3; b4; b5; b6; b7; b8]).
Proof.
  assert (a ≤ 0 ∨ a = 1 ∨ a = 2 ∨ a = 3 ∨ a = 4 ∨ a = 5 ∨ a = 6 ∨ a = 7
          ∨ 8 ≤ a)%Z as Ha by lia.
  destruct Ha as [Ha|[->|[->|[->|[->|[->|[->|[->|Ha]]]]]]]].
  - replace (Z.to_nat a) with 0 by lia.
    repeat match goal with
           | |- context [(?k <=? a)%Z] => destruct (Z.leb_spec k a); [lia|]
           end.
    reflexivity.
  - by destruct b1.
  - by destruct b1, b2.
  - by destruct b1, b2, b3.
  - by destruct b1, b2, b3, b4.
  - by destruct b1, b2, b3, b4, b5.
  - by destruct b1, b2, b3, b4, b5, b6.
  - by destruct b1, b2, b3, b4, b5, b6, b7.
  - rewrite take_ge by (simpl; lia).
    repeat match goal with
           | |- context [(?k <=? a)%Z] => destruct (Z.leb_spec k a); [|lia]
           end.
    by destruct b1, b2, b3, b4, b5, b6, b7, b8.
Qed.

Lemma entry_exprs_at (p : BuyParams) (df : DataFrame) (i : nat) :
  forallb (cond_at df i) (entry_exprs p) = entry_at p df i.
Proof.
  unfold entry_at.
  rewrite (forallb_take_fmap (above_cloud df i)),
    (forallb_take_fmap (bullish df i)).
  unfold trend_close_columns, trend_open_columns.
  cbn [fmap list_fmap zip_with].
  rewrite <- !level_guards.
  unfold entry_exprs. rewrite !forallb_app, !forallb_when, forallb_fmap.
  unfold senkou. cbn [forallb implb].
  rewrite !cond_at_c_gt, cond_at_c_gt_c, cond_at_c_ge_c, !andb_true_r.
  unfold above_cloud, bullish. cbn [fst snd].
  rewrite <- !andb_assoc, andb_true_l.
  assert (∀ xs, forallb (cond_at df i
                         ∘ λ x, c_shift_lt "fan_magnitude" (x + 1)) xs
                = forallb (fan_rising df i) xs) as ->; [|done].
  intros xs. induction xs as [|x xs IH]; simpl; [done|].
  by rewrite IH, <- cond_at_c_shift_lt.
Qed.

Lemma is_Some_c_gt (df : DataFrame) (a b : string) :
  is_Some (df !! a) → is_Some (df !! b) → is_Some (c_gt a b df).
Proof. intros [x Hx] [y Hy]. unfold c_gt. rewrite Hx, Hy. by eexists. Qed.

Lemma entry_conditions_total (p : BuyParams) (df : DataFrame) :
  Forall (λ name : string, is_Some (df !! name)) ichi_columns →
  is_Some (IchiV1.entry_conditions p df).
Proof.
  intros H. rewrite Forall_forall in H.
  assert (∀ a b, a ∈ ichi_columns → b ∈ ichi_columns →
                 is_Some (c_gt a b df)) as Hgt
    by (intros a b Ha Hb; apply is_Some_c_gt; by apply H).
  destruct (H "fan_magnitude") as [fan Hfan]; [in_columns|].
  destruct (H "fan_magnitude_gain") as [gain Hgain]; [in_columns|].
  rewrite entry_conditions_eq. apply mapM_is_Some_2.
  unfold entry_exprs. rewrite !Forall_app. repeat split.
  all: try (match goal with
            | |- Forall _ (when ?g _) => destruct g; simpl
            end;
            repeat constructor; simpl; apply Hgt; in_columns).
  - constructor.
  - repeat constructor. unfold compose, eval, c_ge_c. rewrite Hgain.
    by eexists.
  - repeat constructor. unfold compose, eval, c_gt_c. rewrite Hfan.
    by eexists.
  - apply Forall_fmap, Forall_forall. intros x _.
    unfold compose, eval, c_shift_lt. rewrite Hfan. by eexists.
Qed.

Lemma row_nan (s : Series) (i : nat) :
  Forall (λ x, PrimFloat.is_nan x = true) s →
  PrimFloat.is_nan (row s i) = true.
Proof.
  intros H. unfold row. destruct (s !! i) as [x|] eqn:E; [|done].
  simpl. by eapply (Forall_lookup_1 _ _ _ _ H).
Qed.

Lemma row_div_nan (a b : Series) (i : nat) :
  Forall (λ x, PrimFloat.is_nan x = true) b →
  PrimFloat.is_nan (row (s_div a b) i) = true.
Proof.
  intros H. unfold row, s_div. rewrite lookup_zip_with.
  destruct (a !! i) as [x|]; [|done]. simpl.
  destruct (b !! i) as [y|] eqn:E; [|done]. simpl.
  apply div_nan_r. by eapply (Forall_lookup_1 _ _ _ _ H).
Qed.

Lemma forallb_false_elem {A} (f : A → bool) (l : list A) (x : A) :
  x ∈ l → f x = false → forallb f l = false.
Proof.
  intros Hx Hf. destruct (forallb f l) eqn:E; [|done].
  rewrite forallb_forall in E. rewrite <- Hf. symmetry.
  apply E. by apply list_elem_of_In.
Qed.

Lemma sell_options_columns (sell : string) :
  sell ∈ sell_options →
  sell ∈ ichi_columns ∧ sell ≠ "enter_long" ∧ sell ≠ "exit_long".
Proof.
  unfold sell_options, ichi_columns. intros H.
  repeat (apply elem_of_cons in H as [->|H]);
    [..|by apply elem_of_nil in H];
    (split; [in_columns|by split]).
Qed.

Lemma mapM_Forall_out {A B} (f : A → option B) (Q : B → Prop) (l : list A)
    (k : list B) :
  Forall (λ x, ∀ y, f x = Some y → Q y) l → mapM f l = Some k → Forall Q k.
Proof.
  intros H. revert k. induction H as [|x l Hx _ IH]; intros k; simpl.
  - by intros [= <-].
  - destruct (f x) as [y|] eqn:E; [|done]. simpl.
    destruct (mapM f l) as [k'|]; [|done]. simpl.
    intros [= <-]. constructor; [by apply Hx|by apply IH].
Qed.

(** On a frame whose indicator columns have a row, every condition has
    one. *)
Lemma entry_exprs_rows (p : BuyParams) (df : DataFrame) :
  (∀ n s, n ∈ ichi_columns → df !! n = Some s → s ≠ []) →
  Forall (λ c : Cond, ∀ m, c df = Some m → m ≠ []) (entry_exprs p).
Proof.
  intros H.
  assert (∀ a b, a ∈ ichi_columns → b ∈ ichi_columns →
                 ∀ m, c_gt a b df = Some m → m ≠ []) as Hgt.
  { intros a b Ha Hb m. unfold c_gt.
    destruct (df !! a) as [x|] eqn:Ex; [|done].
    destruct (df !! b) as [y|] eqn:Ey; [|done].
    intros [= <-]. apply zip_with_rows; eauto. }
  destruct (df !! "fan_magnitude") as [fan|] eqn:Hfan.
  2: { unfold entry_exprs. rewrite !Forall_app. repeat split.
       all: try (match goal with
                 | |- Forall _ (when ?g _) => destruct g; simpl
                 end;
                 repeat constructor; apply Hgt; in_columns).
       - constructor.
       - repeat constructor. intros m. unfold c_ge_c.
         destruct (df !! "fan_magnitude_gain") as [gain|] eqn:Hgain; [|done].
         intros [= <-]. apply fmap_rows. eapply H; [|done]. in_columns.
       - repeat constructor. intros m. unfold c_gt_c. by rewrite Hfan.
       - apply Forall_fmap, Forall_forall. intros x _ m.
         unfold compose, c_shift_lt. by rewrite Hfan. }
  assert (fan ≠ []) as Hrows by (eapply H; [|done]; in_columns).
  unfold entry_exprs. rewrite !Forall_app. repeat split.
  all: try (match goal with
            | |- Forall _ (when ?g _) => destruct g; simpl
            end;
            repeat constructor; apply Hgt; in_columns).
  - constructor.
  - repeat constructor. intros m. unfold c_ge_c.
    destruct (df !! "fan_magnitude_gain") as [gain|] eqn:Hgain; [|done].
    intros [= <-]. apply fmap_rows. eapply H; [|done]. in_columns.
  - repeat constructor. intros m. unfold c_gt_c. rewrite Hfan.
    intros [= <-]. by apply fmap_rows.
  - apply Forall_fmap, Forall_forall. intros x _ m.
    unfold compose, c_shift_lt. rewrite Hfan. intros [= <-].
    apply zip_with_rows; [by apply shift_rows|done].
Qed.

Lemma entry_conditions_rows (p : BuyParams) (df : DataFrame)
    (conds : list Mask) :
  (∀ n s, n ∈ ichi_columns → df !! n = Some s → s ≠ []) →
  IchiV1.entry_conditions p df = Some conds →
  Forall (λ m : Mask, m ≠ []) conds.
Proof.
  intros H. rewrite entry_conditions_eq.
  apply mapM_Forall_out, (entry_exprs_rows p df H).
Qed.

Lemma has_rows_columns (df : DataFrame) :
  has_rows df → ∀ n s, n ∈ ichi_columns → df !! n = Some s → s ≠ [].
Proof. intros H n s _ Hs. by eapply H. Qed.

(** The entry flag of a run, on a frame without one. *)
Lemma flag_after_entry (p : BuyParams) (df : DataFrame) (i : nat) :
  df !! "enter_long" = None →
  flag_after (IchiV1.populate_entry_trend p df) "enter_long" i
  = (m ← all_of (IchiV1.entry_conditions p df);
     match m with
     | [] => None
     | _ => Some (forallb (cond_at df i) (entry_exprs p))
     end).
Proof.
  intros Hfresh. unfold IchiV1.populate_entry_trend, all_of.
  destruct (IchiV1.entry_conditions p df) as [conds|] eqn:E; [|done].
  pose proof (entry_conditions_nonempty _ _ _ E) as Hne.
  destruct conds as [|c cs]; [done|]. cbn [mbind option_bind].
  rewrite flag_after_activate_fresh by done.
  destruct (foldl m_and c cs); [done|]. f_equal.
  rewrite entry_conditions_eq in E. by apply mapM_forallb.
Qed.

Lemma entry_mask_rows (p : BuyParams) (df : DataFrame) :
  Forall (λ name : string, is_Some (df !! name)) ichi_columns →
  (∀ n s, n ∈ ichi_columns → df !! n = Some s → s ≠ []) →
  ∃ m, all_of (IchiV1.entry_conditions p df) = Some m ∧ m ≠ [].
Proof.
  intros Hcols Hrows. unfold all_of.
  destruct (entry_conditions_total p df Hcols) as [conds E]. rewrite E.
  pose proof (entry_conditions_nonempty _ _ _ E) as Hne.
  pose proof (entry_conditions_rows _ _ _ Hrows E) as Hall.
  destruct conds as [|c cs]; [done|]. cbn [mbind option_bind].
  eexists. split; [done|].
  apply Forall_cons in Hall as [Hc Hcs]. by apply foldl_m_and_rows.
Qed.

Lemma flag_after_entry_rows (p : BuyParams) (df : DataFrame) (i : nat) :
  Forall (λ name : string, is_Some (df !! name)) ichi_columns →
  (∀ n s, n ∈ ichi_columns → df !! n = Some s → s ≠ []) →
  df !! "enter_long" = None →
  flag_after (IchiV1.populate_entry_trend p df) "enter_long" i
  = Some (entry_at p df i).
Proof.
  intros Hcols Hrows Hfresh. rewrite flag_after_entry by done.
  destruct (entry_mask_rows p df Hcols Hrows) as (m & -> & Hm).
  cbn [mbind option_bind]. destruct m; [done|]. by rewrite entry_exprs_at.
Qed.

(** The flags of the entry followed by the exit. *)
Lemma run_signals (p : BuyParams) (sell : string) (df : DataFrame) :
  Forall (λ name : string, is_Some (df !! name)) ichi_columns →
  (∀ n s, n ∈ ichi_columns → df !! n = Some s → s ≠ []) →
  sell ∈ sell_options →
  df !! "enter_long" = None → df !! "exit_long" = None →
  ∃ price ind,
    df !! "trend_close_5m" = Some price ∧ df !! sell = Some ind
    ∧ ∀ i,
        flag_after (IchiV1.populate_entry_trend p df
                      ≫= IchiV1.populate_exit_trend sell) "enter_long" i
        = Some (entry_at p df i)
        ∧ flag_after (IchiV1.populate_entry_trend p df
                        ≫= IchiV1.populate_exit_trend sell) "exit_long" i
          = Some (crossed_below_at price ind i).
Proof.
  intros Hcols Hrows (Hsell & Hne1 & Hne2)%sell_options_columns He Hx.
  pose proof (λ i, flag_after_entry_rows p df i Hcols Hrows He) as Hflag.
  rewrite Forall_forall in Hcols.
  destruct (Hcols sell Hsell) as [ind Hind].
  destruct (Hcols "trend_close_5m") as [price Hprice]; [in_columns|].
  assert (price ≠ []) as Hp by (eapply Hrows; [|done]; in_columns).
  exists price, ind. do 2 (split; [done|]). intros i.
  specialize (Hflag i).
  destruct (IchiV1.populate_entry_trend p df) as [df2|] eqn:E; [|done].
  injection Hflag as Hflag. rewrite bind_Some_l.
  unfold IchiV1.populate_entry_trend in E.
  destruct (IchiV1.entry_conditions p df) as [conds|]; [|done].
  rewrite bind_Some_l in E.
  unfold IchiV1.populate_exit_trend, IchiV1.exit_conditions.
  rewrite !(activate_lookup_ne _ _ _ _ _ E) by done.
  rewrite Hprice, Hind, !bind_Some_l. cbn [app activate foldl].
  rewrite loc_assign_rows by by apply crossed_below_rows.
  unfold flag_after. rewrite !bind_Some_l. split; f_equal.
  - by rewrite (flag_set_lookup df2) by (by apply mark_rows_lookup_ne).
  - rewrite flag_set_mark_rows_fresh
      by (by rewrite (activate_lookup_ne _ _ _ _ _ E)).
    apply lookup_crossed_below.
Qed.

End EntryRows.

(** ** Rows of the indicator columns *)
Section IndicatorRows.
Context {L : Indicators}.

Lemma length_ha_close_of (o h l c : Series) :
  length o = length c → length h = length c → length l = length c →
  length (ha_close_of o h l c) = length c.
Proof.
  intros Ho Hh Hl. unfold ha_close_of. rewrite !length_zip_with. lia.
Qed.

Lemma heikinashi_lengths (o h l c : Series) (ha : HeikinAshi) :
  heikinashi_of o h l c = Some ha →
  length o = length c → length h = length c → length l = length c →
  length (ha_open ha) = length c ∧ length (ha_high ha) = length c
  ∧ length (ha_low ha) = length c.
Proof.
  intros Hha Ho Hh Hl.
  pose proof (length_ha_close_of o h l c Ho Hh Hl) as Hhc.
  destruct o as [|o0 o']; [done|]. destruct c as [|c0 c']; [done|].
  injection Hha as <-. cbn [ha_open ha_high ha_low].
  rewrite !length_zip_with, !length_ha_open_from, Hhc. lia.
Qed.

Lemma ichi_populated_rows (c : Series) (ha : HeikinAshi)
    (volume enter exit : option Series) (df : DataFrame) :
  keeps_rows L →
  IchiPopulated c ha volume enter exit df →
  length (ha_open ha) = length c → length (ha_high ha) = length c →
  length (ha_low ha) = length c → c ≠ [] →
  ∀ n s, n ∈ ichi_columns → df !! n = Some s → s ≠ [].
Proof.
  intros (_ & Hema & _ & _ & Hichi) Hp Lo Lh Ll Hc n s Hn Hs.
  destruct (Hichi (ha_high ha) (ha_low ha) c 20 60 120 30 Lh Ll)
    as [La Lb].
  assert (length s = length c) as Hlen.
  { destruct Hp. unfold ichi_columns in Hn.
    repeat (apply elem_of_cons in Hn as [->|Hn]);
      [..|by apply elem_of_nil in Hn];
      match goal with
      | H : df !! ?n = Some _, H' : df !! ?n = Some _ |- _ =>
          rewrite H in H'; injection H' as <-
      end;
      rewrite ?length_gain; unfold s_div; rewrite ?length_zip_with;
      rewrite ?Hema by lia; lia. }
  apply rows_length. rewrite Hlen. by apply rows_length.
Qed.

End IndicatorRows.

(** The reference library returns one value per row. *)
Section ReferenceRows.

Lemma length_rolling (f : Series → float) (n : nat) (s : Series) :
  length (Reference.rolling f n s) = length s.
Proof. unfold Reference.rolling. by rewrite length_fmap, length_seq. Qed.

Lemma length_rolling_from_start (f : Series → float) (n : nat) (s : Series) :
  length (Reference.rolling_from_start f n s) = length s.
Proof.
  unfold Reference.rolling_from_start. by rewrite length_fmap, length_seq.
Qed.

Lemma length_ema_from (k prev : float) (s : Series) :
  length (Reference.ema_from k prev s) = length s.
Proof.
  revert prev. induction s as [|x s IH]; intros prev; simpl; [done|].
  by rewrite IH.
Qed.

Lemma length_wilder (n prev : float) (s : Series) :
  length (Reference.wilder n prev s) = length s.
Proof.
  revert prev. induction s as [|x s IH]; intros prev; simpl; [done|].
  by rewrite IH.
Qed.

Lemma length_EMA (s : Series) (n : nat) :
  (0 < n)%nat → length (Reference.EMA s n) = length s.
Proof.
  intros Hn. unfold Reference.EMA.
  destruct (Nat.ltb_spec (length s) n).
  - by rewrite length_replicate.
  - rewrite length_app, length_replicate. cbn [length].
    rewrite length_ema_from, length_drop. lia.
Qed.

Lemma length_smoothed (s : Series) (n : nat) :
  length (Reference.smoothed s n) = S (length s - n).
Proof.
  unfold Reference.smoothed. cbn [length].
  by rewrite length_wilder, length_drop.
Qed.

Lemma length_RSI (s : Series) (n : nat) :
  length (Reference.RSI s n) = length s.
Proof.
  unfold Reference.RSI. destruct (Nat.leb_spec (length s) n).
  - by rewrite length_replicate.
  - rewrite length_app, length_replicate, length_zip_with, !length_smoothed,
      !length_fmap, length_zip_with, length_drop. lia.
Qed.

Lemma length_midpoint (h l : Series) (n : nat) :
  length (Reference.midpoint h l n) = Nat.min (length h) (length l).
Proof.
  unfold Reference.midpoint. by rewrite length_zip_with, !length_rolling.
Qed.

Lemma reference_keeps_rows : keeps_rows Reference.indicators.
Proof.
  repeat split; simpl.
  - intros s n _. apply length_rolling.
  - intros s n Hn. by apply length_EMA.
  - intros s n _. apply length_RSI.
  - unfold Reference.bollinger. simpl.
    rewrite length_zip_with, length_fmap, !length_rolling_from_start. lia.
  - unfold Reference.bollinger. simpl.
    rewrite length_zip_with, length_fmap, !length_rolling_from_start. lia.
  - unfold Reference.ichimoku_cloud. simpl.
    rewrite length_shift, length_zip_with, !length_midpoint. lia.
  - unfold Reference.ichimoku_cloud. simpl.
    rewrite length_shift, length_midpoint. lia.
Qed.

Lemma reference_EMA_warmup (s : Series) (n : nat) :
  length s < n →
  Forall (λ x, PrimFloat.is_nan x = true) (Reference.EMA s n).
Proof.
  intros H. unfold Reference.EMA.
  destruct (Nat.ltb_spec (length s) n) as [_|?]; [|lia].
  by apply Forall_replicate.
Qed.

End ReferenceRows.

(** ** Series shorter than the warm-up count *)


Section WarmUp.
Context {L : Indicators}.

(** The three IchiV1 stages on a candle series that is not empty, with a
    library that returns one value per row. *)
Lemma ichi_run (p : BuyParams) (sell : string) (cs : list Candle) :
  keeps_rows L → sell ∈ sell_options → cs ≠ [] →
  ∃ ha df1 price ind,
    heikinashi_of (c_open <$> cs) (c_high <$> cs) (c_low <$> cs)
      (c_close <$> cs) = Some ha
    ∧ IchiV1.populate_indicators (frame_of_candles cs) = Some df1
    ∧ IchiPopulated (c_close <$> cs) ha (Some (c_volume <$> cs)) None None
        df1
    ∧ df1 !! "trend_close_5m" = Some price ∧ df1 !! sell = Some ind
    ∧ ∀ i,
        flag_after
          (run IchiV1.populate_indicators (IchiV1.populate_entry_trend p)
             (IchiV1.populate_exit_trend sell) cs) "enter_long" i
        = Some (entry_at p df1 i)
        ∧ flag_after
            (run IchiV1.populate_indicators (IchiV1.populate_entry_trend p)
               (IchiV1.populate_exit_trend sell) cs) "exit_long" i
          = Some (crossed_below_at price ind i).
Proof.
  intros Hkeep Hsell Hcs.
  destruct (frame_of_candles_columns cs)
    as (Ho & Hh & Hl & Hc & Hv & He & Hx).
  destruct (heikinashi_of_rows (c_open <$> cs) (c_high <$> cs)
              (c_low <$> cs) (c_close <$> cs)) as [ha Hha];
    [by apply fmap_rows..|].
  destruct (ichi_populate _ _ _ _ _ ha _ _ _ Ho Hh Hl Hc Hv He Hx Hha)
    as (df1 & Hrun & Hp).
  destruct (heikinashi_lengths _ _ _ _ _ Hha) as (Lo & Lh & Ll);
    [by rewrite !length_fmap..|].
  pose proof (ichi_populated_rows _ _ _ _ _ _ Hkeep Hp Lo Lh Ll
                (fmap_rows _ _ Hcs)) as Hrows.
  destruct (run_signals p sell df1 (ichi_populated_columns _ _ _ _ _ _ Hp)
              Hrows Hsell (ip_enter _ _ _ _ _ _ Hp) (ip_exit _ _ _ _ _ _ Hp))
    as (price & ind & Hprice & Hind & Hflags).
  exists ha, df1, price, ind. do 5 (split; [done|]).
  unfold run. rewrite Hrun, bind_Some_l. exact Hflags.
Qed.


End WarmUp.

(** * Further properties of the strategies *)

(** ** The IchiV1 entry for every value of the parameters *)
Section EntryValues.

Lemma populated_columns :
  Forall (λ name : string, is_Some (populated !! name)) ichi_columns.
Proof. unfold ichi_columns. repeat constructor; by eexists. Qed.

Lemma populated_has_rows : has_rows populated.
Proof.
  intros n s H ->. apply elem_of_list_to_map_2 in H. cbn in H.
  repeat (apply elem_of_cons in H as [[=]|H]). by apply elem_of_nil in H.
Qed.

(** X1: on a frame with at least one row that holds the indicator columns
    and no entry flag, for every value of the four buy parameters,
    populate_entry_trend runs and sets the entry flag at row [i] exactly
    when [entry_at] holds there. *)
Theorem ichi_entry_rows (p : BuyParams) (df : DataFrame) (i : nat) :
  Forall (λ name : string, is_Some (df !! name)) ichi_columns →
  has_rows df →
  df !! "enter_long" = None →
  flag_after (IchiV1.populate_entry_trend p df) "enter_long" i
  = Some (entry_at p df i).
Proof.
  intros Hcols Hrows Hfresh.
  apply flag_after_entry_rows; [done|by apply has_rows_columns|done].
Qed.

Lemma ichi_entry_rows_witness :
  flag_after (IchiV1.populate_entry_trend IchiV1_Fixed.buy_params populated)
    "enter_long" 2 = Some true
  ∧ flag_after (IchiV1.populate_entry_trend IchiV1_Fixed.buy_params populated)
      "enter_long" 0 = Some false.
Proof.
  rewrite !(ichi_entry_rows _ _ _ populated_columns populated_has_rows
              eq_refl).
  split; vm_compute; reflexivity.
Defined.

(** X2: on a frame without an entry flag, populate_entry_trend never sets
    the flag in the first buy_fan_magnitude_shift_value rows: a row needs
    that many earlier rows of fan magnitude below its own. *)
Theorem ichi_entry_skips_first_rows (p : BuyParams) (df : DataFrame)
    (i : nat) :
  df !! "enter_long" = None →
  flag_after (IchiV1.populate_entry_trend p df) "enter_long" i = Some true →
  (Z.to_nat (buy_fan_magnitude_shift_value p) ≤ i)%nat.
Proof.
  intros Hfresh. rewrite flag_after_entry by done.
  destruct (all_of (IchiV1.entry_conditions p df)) as [m|]; [|done].
  cbn [mbind option_bind]. destruct m; [done|].
  rewrite entry_exprs_at. intros [= H]. unfold entry_at in H.
  apply andb_prop in H as [_ H]. rewrite forallb_forall in H.
  destruct (Z.to_nat (buy_fan_magnitude_shift_value p)) as [|n] eqn:E;
    [lia|].
  specialize (H n). unfold fan_rising in H.
  assert (In n (seq 0 (S n))) as Hn by (apply in_seq; lia).
  apply H, andb_prop in Hn as [Hn _]. apply Nat.leb_le in Hn. lia.
Qed.

Lemma ichi_entry_skips_first_rows_witness :
  (Z.to_nat (buy_fan_magnitude_shift_value IchiV1_Optimizable.default_params)
   ≤ 3)%nat.
Proof.
  apply (ichi_entry_skips_first_rows IchiV1_Optimizable.default_params
           populated 3 eq_refl).
  vm_compute. reflexivity.
Defined.

End EntryValues.

(** ** What the signal functions read, and how they compose *)
Section SignalFrames.

Ltac in_grid_columns :=
  unfold grid_columns;
  repeat first [by apply list_elem_of_here | apply list_elem_of_further].

Lemma grid_masks_agree (df df' : DataFrame) :
  (∀ n, n ∈ grid_columns → df' !! n = df !! n) →
  GridStrategy.entry_mask df' = GridStrategy.entry_mask df
  ∧ GridStrategy.exit_mask df' = GridStrategy.exit_mask df
  ∧ GridStrategyV2.entry_mask df' = GridStrategyV2.entry_mask df
  ∧ GridStrategyV2.exit_mask df' = GridStrategyV2.exit_mask df.
Proof.
  intros H.
  unfold GridStrategy.entry_mask, GridStrategy.exit_mask,
    GridStrategyV2.entry_mask, GridStrategyV2.exit_mask.
  rewrite !(H "close"), !(H "bb_lowerband"), !(H "bb_upperband"),
    !(H "rsi"), !(H "sma_20"), !(H "volume"), !(H "volume_sma")
    by in_grid_columns.
  done.
Qed.

Lemma entry_exprs_agree (p : BuyParams) (df df' : DataFrame) :
  (∀ n, n ∈ ichi_columns → df' !! n = df !! n) →
  Forall (λ c : Cond, c df' = c df) (entry_exprs p).
Proof.
  intros H.
  assert (∀ a b, a ∈ ichi_columns → b ∈ ichi_columns →
                 c_gt a b df' = c_gt a b df) as Hgt
    by (intros a b Ha Hb; unfold c_gt; by rewrite (H a), (H b)).
  unfold entry_exprs. rewrite !Forall_app. repeat split.
  all: try (match goal with
            | |- Forall _ (when ?g _) => destruct g; simpl
            end;
            repeat constructor; apply Hgt; in_columns).
  - constructor.
  - repeat constructor. unfold c_ge_c.
    by rewrite (H "fan_magnitude_gain") by in_columns.
  - repeat constructor. unfold c_gt_c.
    by rewrite (H "fan_magnitude") by in_columns.
  - apply Forall_fmap, Forall_forall. intros x _. unfold compose, c_shift_lt.
    by rewrite (H "fan_magnitude") by in_columns.
Qed.

Lemma mapM_Forall_ext {A B} (f g : A → option B) (l : list A) :
  Forall (λ x, f x = g x) l → mapM f l = mapM g l.
Proof.
  induction 1 as [|x l Hx _ IH]; simpl; [done|]. by rewrite Hx, IH.
Qed.

Lemma forallb_Forall_ext {A} (f g : A → bool) (l : list A) :
  Forall (λ x, f x = g x) l → forallb f l = forallb g l.
Proof.
  induction 1 as [|x l Hx _ IH]; simpl; [done|]. by rewrite Hx, IH.
Qed.

Lemma entry_conditions_agree (p : BuyParams) (df df' : DataFrame) :
  (∀ n, n ∈ ichi_columns → df' !! n = df !! n) →
  IchiV1.entry_conditions p df' = IchiV1.entry_conditions p df.
Proof.
  intros H. rewrite !entry_conditions_eq.
  apply mapM_Forall_ext, (entry_exprs_agree p df df' H).
Qed.

(** X3: the IchiV1 signal functions read only the columns of
    [ichi_columns]: on two frames without flags that agree on these twenty
    columns (and may differ on every other one, such as the leading spans,
    the cloud colours, tenkan, kijun and atr) they run alike and set the
    entry flag and the exit flag on the same rows. *)
Theorem ichi_signals_read_only (p : BuyParams) (sell : string)
    (df df' : DataFrame) (i : nat) :
  (∀ n, n ∈ ichi_columns → df' !! n = df !! n) →
  sell ∈ sell_options →
  df !! "enter_long" = None → df' !! "enter_long" = None →
  df !! "exit_long" = None → df' !! "exit_long" = None →
  flag_after (IchiV1.populate_entry_trend p df') "enter_long" i
  = flag_after (IchiV1.populate_entry_trend p df) "enter_long" i
  ∧ flag_after (IchiV1.populate_exit_trend sell df') "exit_long" i
    = flag_after (IchiV1.populate_exit_trend sell df) "exit_long" i.
Proof.
  intros H (Hsell & _ & _)%sell_options_columns He He' Hx Hx'. split.
  - rewrite !flag_after_entry by done.
    rewrite (entry_conditions_agree p df df' H).
    destruct (all_of (IchiV1.entry_conditions p df)) as [m|]; [|done].
    cbn [mbind option_bind]. destruct m; [done|]. f_equal.
    apply forallb_Forall_ext.
    eapply Forall_impl; [apply (entry_exprs_agree p df df' H)|].
    intros c Hc. unfold cond_at. by rewrite Hc.
  - unfold IchiV1.populate_exit_trend, IchiV1.exit_conditions.
    rewrite (H "trend_close_5m") by in_columns. rewrite (H sell) by done.
    destruct (df !! "trend_close_5m") as [price|]; [|done].
    destruct (df !! sell) as [ind|]; [|done].
    cbn [mbind option_bind app activate foldl].
    by rewrite !flag_after_loc_assign_fresh by done.
Qed.

Lemma populated_more_agrees (n : string) :
  n ∈ ichi_columns → populated_more !! n = populated !! n.
Proof.
  intros Hn. unfold populated_more.
  rewrite !lookup_insert_ne; [done| |].
  - intros <-. unfold ichi_columns in Hn.
    repeat (apply elem_of_cons in Hn as [Hn|Hn]; [done|]).
    by apply elem_of_nil in Hn.
  - intros <-. unfold ichi_columns in Hn.
    repeat (apply elem_of_cons in Hn as [Hn|Hn]; [done|]).
    by apply elem_of_nil in Hn.
Qed.

Lemma ichi_signals_read_only_witness :
  flag_after
    (IchiV1.populate_entry_trend IchiV1_Fixed.buy_params populated_more)
    "enter_long" 2
  = flag_after (IchiV1.populate_entry_trend IchiV1_Fixed.buy_params populated)
      "enter_long" 2.
Proof.
  assert ("trend_close_30m" ∈ sell_options) as Hsell
    by (unfold sell_options;
        repeat first [by apply list_elem_of_here | apply list_elem_of_further]).
  exact (proj1 (ichi_signals_read_only IchiV1_Fixed.buy_params
                  "trend_close_30m" populated populated_more 2
                  populated_more_agrees Hsell eq_refl eq_refl eq_refl
                  eq_refl)).
Defined.

End SignalFrames.

(** ** Order and repetition of the signal functions *)
Section SignalComposition.

Lemma mark_rows_comm (m1 m2 : Mask) (f1 f2 : string) (v w : float)
    (df : DataFrame) :
  f1 ≠ f2 →
  mark_rows m1 f1 v (mark_rows m2 f2 w df)
  = mark_rows m2 f2 w (mark_rows m1 f1 v df).
Proof.
  intros H. unfold mark_rows.
  rewrite (lookup_insert_ne _ f2 f1) by done.
  rewrite (lookup_insert_ne _ f1 f2) by done.
  by apply insert_insert_ne.
Qed.

Lemma zip_with_mark_idem (v : float) (m : Mask) (old : Series) :
  zip_with (λ (b : bool) (o : float), if b then v else o) m
    (zip_with (λ (b : bool) (o : float), if b then v else o) m old)
  = zip_with (λ (b : bool) (o : float), if b then v else o) m old.
Proof.
  revert old. induction m as [|b m IH]; intros [|o old]; simpl; try done.
  rewrite IH. by destruct b.
Qed.

Lemma mark_rows_idem (m : Mask) (f : string) (v : float) (df : DataFrame) :
  mark_rows m f v (mark_rows m f v df) = mark_rows m f v df.
Proof.
  unfold mark_rows. rewrite lookup_insert_eq. simpl.
  by rewrite insert_insert_eq, zip_with_mark_idem.
Qed.

Lemma mark_rows_present (m : Mask) (f : string) (v : float) (df : DataFrame) :
  is_Some (mark_rows m f v df !! f).
Proof. unfold mark_rows. rewrite lookup_insert_eq. by eexists. Qed.

(** Two signal functions that assign different flags and whose masks do not
    read the flags can run in either order. *)
Lemma signals_commute_gen (f1 f2 : string)
    (mask1 mask2 : DataFrame → option Mask) (df : DataFrame) :
  f1 ≠ f2 →
  (∀ m d, mask2 (mark_rows m f1 1 d) = mask2 d) →
  (∀ m d, mask1 (mark_rows m f2 1 d) = mask1 d) →
  ((m ← mask1 df; loc_assign m f1 1 df)
     ≫= λ d, m ← mask2 d; loc_assign m f2 1 d)
  = ((m ← mask2 df; loc_assign m f2 1 df)
       ≫= λ d, m ← mask1 d; loc_assign m f1 1 d).
Proof.
  intros Hne H2 H1.
  destruct (mask1 df) as [m1|] eqn:E1, (mask2 df) as [m2|] eqn:E2;
    cbn [mbind option_bind]; rewrite ?loc_assign_bind, ?H1, ?H2, ?E1, ?E2;
    cbn [mbind option_bind].
  - unfold loc_assign. rewrite !mark_rows_lookup_ne by done.
    destruct (df !! f1), m1, (df !! f2), m2; try done;
      by rewrite mark_rows_comm.
  - by destruct (df !! f1), m1.
  - by destruct (df !! f2), m2.
  - done.
Qed.

(** A signal function whose mask does not read its flag is idempotent. *)
Lemma signal_idempotent_gen (f : string) (mask : DataFrame → option Mask)
    (df : DataFrame) :
  (∀ m d, mask (mark_rows m f 1 d) = mask d) →
  ((m ← mask df; loc_assign m f 1 df) ≫= λ d, m ← mask d; loc_assign m f 1 d)
  = (m ← mask df; loc_assign m f 1 df).
Proof.
  intros H. destruct (mask df) as [m|] eqn:E; cbn [mbind option_bind];
    [|done].
  rewrite loc_assign_bind, H, E. cbn [mbind option_bind].
  rewrite (loc_assign_present m f 1 (mark_rows m f 1 df))
    by apply mark_rows_present.
  rewrite mark_rows_idem. unfold loc_assign. by destruct (df !! f), m.
Qed.

Lemma grid_columns_not_flag (n : string) :
  n ∈ grid_columns → n ≠ "enter_long" ∧ n ≠ "exit_long".
Proof.
  unfold grid_columns. intros H.
  repeat (apply elem_of_cons in H as [->|H]; [done|]).
  by apply elem_of_nil in H.
Qed.

Lemma ichi_columns_not_flag (n : string) :
  n ∈ ichi_columns → n ≠ "enter_long" ∧ n ≠ "exit_long".
Proof.
  unfold ichi_columns. intros H.
  repeat (apply elem_of_cons in H as [->|H]; [done|]).
  by apply elem_of_nil in H.
Qed.

Lemma grid_masks_after_flag (m : Mask) (flag : string) (df : DataFrame) :
  flag = "enter_long" ∨ flag = "exit_long" →
  GridStrategy.entry_mask (mark_rows m flag 1 df) = GridStrategy.entry_mask df
  ∧ GridStrategy.exit_mask (mark_rows m flag 1 df) = GridStrategy.exit_mask df
  ∧ GridStrategyV2.entry_mask (mark_rows m flag 1 df)
    = GridStrategyV2.entry_mask df
  ∧ GridStrategyV2.exit_mask (mark_rows m flag 1 df)
    = GridStrategyV2.exit_mask df.
Proof.
  intros Hflag. apply grid_masks_agree. intros n [H1 H2]%grid_columns_not_flag.
  apply mark_rows_lookup_ne. by destruct Hflag as [-> | ->].
Qed.

Lemma entry_conditions_after_flag (p : BuyParams) (m : Mask)
    (flag : string) (df : DataFrame) :
  flag = "enter_long" ∨ flag = "exit_long" →
  IchiV1.entry_conditions p (mark_rows m flag 1 df)
  = IchiV1.entry_conditions p df.
Proof.
  intros Hflag. apply entry_conditions_agree.
  intros n [H1 H2]%ichi_columns_not_flag.
  apply mark_rows_lookup_ne. by destruct Hflag as [-> | ->].
Qed.

Lemma exit_conditions_after_flag (sell : string) (m : Mask)
    (flag : string) (df : DataFrame) :
  sell ∈ sell_options →
  flag = "enter_long" ∨ flag = "exit_long" →
  IchiV1.exit_conditions sell (mark_rows m flag 1 df)
  = IchiV1.exit_conditions sell df.
Proof.
  intros (_ & H1 & H2)%sell_options_columns Hflag.
  unfold IchiV1.exit_conditions.
  rewrite !mark_rows_lookup_ne; [done| |]; by destruct Hflag as [-> | ->].
Qed.

(** The IchiV1 signal functions assign their flag on the conjunction of
    their conditions, like the Grid ones on their mask. *)
Lemma ichi_entry_as_mask (p : BuyParams) (df : DataFrame) :
  IchiV1.populate_entry_trend p df
  = (m ← all_of (IchiV1.entry_conditions p df); loc_assign m "enter_long" 1 df).
Proof.
  unfold IchiV1.populate_entry_trend, all_of.
  destruct (IchiV1.entry_conditions p df) as [conds|] eqn:E; [|done].
  destruct conds; [by apply entry_conditions_nonempty in E|done].
Qed.

Lemma ichi_exit_as_mask (sell : string) (df : DataFrame) :
  IchiV1.populate_exit_trend sell df
  = (m ← all_of (IchiV1.exit_conditions sell df); loc_assign m "exit_long" 1 df).
Proof.
  unfold IchiV1.populate_exit_trend, IchiV1.exit_conditions, all_of.
  destruct (df !! "trend_close_5m"); [|done]. by destruct (df !! sell).
Qed.

(** X4: the entry and the exit function of a strategy can run in either
    order: entry then exit returns the same frame as exit then entry, or
    both orders raise. For IchiV1 the sell indicator is one of the eight
    trend_close columns. *)
Theorem signals_commute (p : BuyParams) (sell : string) (df : DataFrame) :
  sell ∈ sell_options →
  (GridStrategy.populate_entry_trend df ≫= GridStrategy.populate_exit_trend)
  = (GridStrategy.populate_exit_trend df ≫= GridStrategy.populate_entry_trend)
  ∧ (GridStrategyV2.populate_entry_trend df
       ≫= GridStrategyV2.populate_exit_trend)
    = (GridStrategyV2.populate_exit_trend df
         ≫= GridStrategyV2.populate_entry_trend)
  ∧ (IchiV1.populate_entry_trend p df ≫= IchiV1.populate_exit_trend sell)
    = (IchiV1.populate_exit_trend sell df ≫= IchiV1.populate_entry_trend p).
Proof.
  intros Hsell. split; [|split].
  - apply (signals_commute_gen "enter_long" "exit_long"
             GridStrategy.entry_mask GridStrategy.exit_mask); [done| |].
    + intros m d. apply (grid_masks_after_flag m "enter_long" d). by left.
    + intros m d. apply (grid_masks_after_flag m "exit_long" d). by right.
  - apply (signals_commute_gen "enter_long" "exit_long"
             GridStrategyV2.entry_mask GridStrategyV2.exit_mask); [done| |].
    + intros m d. apply (grid_masks_after_flag m "enter_long" d). by left.
    + intros m d. apply (grid_masks_after_flag m "exit_long" d). by right.
  - rewrite (option_bind_ext _ _ _ _ (ichi_exit_as_mask sell)
               (ichi_entry_as_mask p df)).
    rewrite (option_bind_ext _ _ _ _ (ichi_entry_as_mask p)
               (ichi_exit_as_mask sell df)).
    apply (signals_commute_gen "enter_long" "exit_long"
             (λ d, all_of (IchiV1.entry_conditions p d))
             (λ d, all_of (IchiV1.exit_conditions sell d))); [done| |].
    + intros m d. by rewrite exit_conditions_after_flag by (done || by left).
    + intros m d. by rewrite entry_conditions_after_flag by by right.
Qed.

Lemma signals_commute_witness :
  (GridStrategy.populate_entry_trend dip ≫= GridStrategy.populate_exit_trend)
  = (GridStrategy.populate_exit_trend dip ≫= GridStrategy.populate_entry_trend).
Proof.
  assert ("trend_close_30m" ∈ sell_options) as Hsell
    by (unfold sell_options;
        repeat first [by apply list_elem_of_here | apply list_elem_of_further]).
  exact (proj1 (signals_commute IchiV1_Fixed.buy_params "trend_close_30m" dip
                  Hsell)).
Defined.

(** X5: every signal function is idempotent: running it on its own result
    returns that result again (the host may call it once per new candle on
    a frame that already carries flags). For IchiV1 the sell indicator is
    one of the eight trend_close columns. *)
Theorem signals_idempotent (p : BuyParams) (sell : string) (df : DataFrame) :
  sell ∈ sell_options →
  (GridStrategy.populate_entry_trend df ≫= GridStrategy.populate_entry_trend)
  = GridStrategy.populate_entry_trend df
  ∧ (GridStrategy.populate_exit_trend df ≫= GridStrategy.populate_exit_trend)
    = GridStrategy.populate_exit_trend df
  ∧ (GridStrategyV2.populate_entry_trend df
       ≫= GridStrategyV2.populate_entry_trend)
    = GridStrategyV2.populate_entry_trend df
  ∧ (GridStrategyV2.populate_exit_trend df
       ≫= GridStrategyV2.populate_exit_trend)
    = GridStrategyV2.populate_exit_trend df
  ∧ (IchiV1.populate_entry_trend p df ≫= IchiV1.populate_entry_trend p)
    = IchiV1.populate_entry_trend p df
  ∧ (IchiV1.populate_exit_trend sell df ≫= IchiV1.populate_exit_trend sell)
    = IchiV1.populate_exit_trend sell df.
Proof.
  intros Hsell. repeat split.
  - apply (signal_idempotent_gen "enter_long" GridStrategy.entry_mask).
    intros m d. apply (grid_masks_after_flag m "enter_long" d). by left.
  - apply (signal_idempotent_gen "exit_long" GridStrategy.exit_mask).
    intros m d. apply (grid_masks_after_flag m "exit_long" d). by right.
  - apply (signal_idempotent_gen "enter_long" GridStrategyV2.entry_mask).
    intros m d. apply (grid_masks_after_flag m "enter_long" d). by left.
  - apply (signal_idempotent_gen "exit_long" GridStrategyV2.exit_mask).
    intros m d. apply (grid_masks_after_flag m "exit_long" d). by right.
  - rewrite (option_bind_ext _ _ _ _ (ichi_entry_as_mask p)
               (ichi_entry_as_mask p df)).
    rewrite ichi_entry_as_mask.
    apply (signal_idempotent_gen "enter_long"
             (λ d, all_of (IchiV1.entry_conditions p d))).
    intros m d. by rewrite entry_conditions_after_flag by by left.
  - rewrite (option_bind_ext _ _ _ _ (ichi_exit_as_mask sell)
               (ichi_exit_as_mask sell df)).
    rewrite ichi_exit_as_mask.
    apply (signal_idempotent_gen "exit_long"
             (λ d, all_of (IchiV1.exit_conditions sell d))).
    intros m d. by rewrite exit_conditions_after_flag by (done || by right).
Qed.

Lemma signals_idempotent_witness :
  (GridStrategy.populate_entry_trend dip ≫= GridStrategy.populate_entry_trend)
  = GridStrategy.populate_entry_trend dip.
Proof.
  assert ("trend_close_30m" ∈ sell_options) as Hsell
    by (unfold sell_options;
        repeat first [by apply list_elem_of_here | apply list_elem_of_further]).
  exact (proj1 (signals_idempotent IchiV1_Fixed.buy_params "trend_close_30m"
                  dip Hsell)).
Defined.

End SignalComposition.

(** ** GridStrategyV2 against GridStrategy *)
Section GridVariants.

Lemma SFltb_wider_bound (x : spec_float) (m1 m2 : positive) (e1 e2 : Z) :
  (e1 < e2)%Z →
  SFltb x (S754_finite false m1 e1) = true →
  SFltb x (S754_finite false m2 e2) = true.
Proof.
  intros He. unfold SFltb.
  destruct x as [s|s| |s m e]; simpl; try done.
  destruct s; [done|].
  destruct (Z.compare_spec e e1) as [->|Hlt|Hgt]; try done.
  - intros _. by rewrite (proj2 (Z.compare_lt_iff e1 e2)).
  - intros _. by rewrite (proj2 (Z.compare_lt_iff e e2)) by lia.
Qed.

Lemma flt_30_40 (r : float) : flt r 30 = true → flt r 40 = true.
Proof.
  unfold flt. rewrite !FloatAxioms.ltb_spec.
  let a := eval vm_compute in (Prim2SF 30) in change (Prim2SF 30) with a.
  let b := eval vm_compute in (Prim2SF 40) in change (Prim2SF 40) with b.
  by apply SFltb_wider_bound.
Qed.

Lemma at_mask_s_ge' (a b : Series) (i : nat) :
  at_mask (s_ge a b) i = fge (row a i) (row b i).
Proof.
  apply at_mask_zip; intros x; unfold fge;
    [apply leb_nan_r | apply leb_nan_l]; reflexivity.
Qed.

Lemma at_mask_true (m : Mask) (i : nat) :
  at_mask m i = true ↔ m !! i = Some true.
Proof.
  unfold at_mask. destruct (m !! i) as [[]|]; simpl; split; congruence.
Qed.

Lemma cell_Some (df : DataFrame) (name : string) (i : nat) :
  is_Some (cell df name i) →
  ∃ s x, df !! name = Some s ∧ s !! i = Some x ∧ value df name i = x.
Proof.
  unfold value, cell. intros [x Hx].
  destruct (df !! name) as [s|]; [|done]. simpl in *.
  exists s, x. by rewrite Hx.
Qed.

Lemma flag_after_mask_true (mask : option Mask) (flag : string)
    (df : DataFrame) (i : nat) :
  df !! flag = None →
  flag_after (m ← mask; loc_assign m flag 1 df) flag i = Some true
  ↔ (m ← mask; Some (at_mask m i)) = Some true.
Proof.
  intros H. destruct mask as [m|]; cbn [mbind option_bind]; [|done].
  rewrite flag_after_loc_assign_true by done.
  split; [by intros ->|by intros [= ->]].
Qed.

(** X6: GridStrategyV2 signals within GridStrategy's. On a frame without
    flags whose row [i] has the two averages only GridStrategy reads
    (sma_20, volume_sma): if GridStrategyV2 sets the entry flag at row [i]
    and the close there is positive, GridStrategy sets it too; if
    GridStrategyV2 sets the exit flag at row [i], so does GridStrategy. *)
Theorem grid_v2_signals_within_grid (df : DataFrame) (i : nat) :
  df !! "enter_long" = None → df !! "exit_long" = None →
  is_Some (cell df "sma_20" i) → is_Some (cell df "volume_sma" i) →
  (flag_after (GridStrategyV2.populate_entry_trend df) "enter_long" i
   = Some true →
   fgt (value df "close" i) 0 = true →
   flag_after (GridStrategy.populate_entry_trend df) "enter_long" i
   = Some true)
  ∧ (flag_after (GridStrategyV2.populate_exit_trend df) "exit_long" i
     = Some true →
     flag_after (GridStrategy.populate_exit_trend df) "exit_long" i
     = Some true).
Proof.
  intros He Hx (sma & s & Hsma & Hs & _)%cell_Some
    (vsma & vs & Hvsma & Hvs & _)%cell_Some.
  unfold GridStrategyV2.populate_entry_trend, GridStrategy.populate_entry_trend,
    GridStrategyV2.populate_exit_trend, GridStrategy.populate_exit_trend.
  rewrite !flag_after_mask_true by done.
  unfold GridStrategyV2.entry_mask, GridStrategy.entry_mask,
    GridStrategyV2.exit_mask, GridStrategy.exit_mask, value, cell.
  rewrite Hsma, Hvsma.
  destruct (df !! "close") as [close|]; [|by split].
  destruct (df !! "rsi") as [rsi|];
    [|by split; destruct (df !! "bb_lowerband"), (df !! "bb_upperband")].
  destruct (df !! "volume") as [volume|];
    [|by split; destruct (df !! "bb_lowerband"), (df !! "bb_upperband")].
  cbn [mbind option_bind]. split.
  - destruct (df !! "bb_lowerband") as [bb|]; [|done].
    cbn [mbind option_bind].
    intros [= H%at_mask_true] Hpos. f_equal. apply at_mask_true.
    unfold m_and, m_or, s_le, s_lt, s_gt, s_lt_c, s_gt_c in *.
    rewrite !lookup_zip_with, !list_lookup_fmap in *.
    destruct (close !! i) as [c|]; [|done].
    destruct (bb !! i) as [l|]; [|done].
    destruct (rsi !! i) as [r|]; [|done].
    destruct (volume !! i) as [v|]; [|by destruct (fle c l || flt r 30)].
    rewrite Hs, Hvs. simpl in *. injection H as H.
    apply andb_prop in H as [H Hv]. rewrite Hv, Hpos, !andb_true_r.
    apply orb_prop in H as [->|H%flt_30_40]; [done|].
    by rewrite H, orb_true_r.
  - destruct (df !! "bb_upperband") as [bb|]; [|done].
    cbn [mbind option_bind].
    intros [= H%at_mask_true]. f_equal. apply at_mask_true.
    unfold m_and, m_or, s_ge, s_gt, s_gt_c in *.
    rewrite !lookup_zip_with, !list_lookup_fmap in *.
    destruct (close !! i) as [c|]; [|done].
    destruct (bb !! i) as [u|]; [|done].
    destruct (rsi !! i) as [r|]; [|done].
    destruct (volume !! i) as [v|]; [|by destruct (fge c u && fgt r 70)].
    rewrite Hs, Hvs. simpl in *. injection H as H.
    apply andb_prop in H as [[-> _]%andb_prop ->]. done.
Qed.

Lemma grid_v2_signals_within_grid_witness :
  flag_after (GridStrategy.populate_entry_trend dip) "enter_long" 0
  = Some true.
Proof.
  apply (proj1 (grid_v2_signals_within_grid dip 0 eq_refl eq_refl
                  (mk_is_Some _ _ eq_refl) (mk_is_Some _ _ eq_refl)));
    vm_compute; reflexivity.
Defined.

(** X7: the exit flags are gated like the entries. On a frame without an
    exit flag, GridStrategy sets the exit flag at a row only if volume > 0
    there; GridStrategyV2 only if, besides, close >= bb_upperband and
    rsi > 70 there. *)
Theorem grid_exit_gates (df : DataFrame) (i : nat) :
  df !! "exit_long" = None →
  (flag_after (GridStrategy.populate_exit_trend df) "exit_long" i
   = Some true →
   fgt (value df "volume" i) 0 = true)
  ∧ (flag_after (GridStrategyV2.populate_exit_trend df) "exit_long" i
     = Some true →
     fgt (value df "volume" i) 0 = true
     ∧ fge (value df "close" i) (value df "bb_upperband" i) = true
     ∧ fgt (value df "rsi" i) 70 = true).
Proof.
  intros Hfresh.
  unfold GridStrategy.populate_exit_trend, GridStrategyV2.populate_exit_trend.
  rewrite !flag_after_mask_true by done.
  unfold GridStrategy.exit_mask, GridStrategyV2.exit_mask. split.
  - destruct (df !! "close") as [close|]; [|done].
    destruct (df !! "bb_upperband") as [bb|]; [|done].
    destruct (df !! "rsi") as [rsi|]; [|done].
    destruct (df !! "sma_20") as [sma|]; [|done].
    destruct (df !! "volume") as [volume|] eqn:Hv; [|done].
    destruct (df !! "volume_sma") as [vsma|]; [|done].
    cbn [mbind option_bind]. rewrite at_mask_and, at_mask_s_gt_c.
    rewrite (value_lookup _ _ _ _ Hv). by intros [= [_ ?]%andb_prop].
  - destruct (df !! "close") as [close|] eqn:Hc; [|done].
    destruct (df !! "bb_upperband") as [bb|] eqn:Hb; [|done].
    destruct (df !! "rsi") as [rsi|] eqn:Hr; [|done].
    destruct (df !! "volume") as [volume|] eqn:Hv; [|done].
    cbn [mbind option_bind].
    rewrite !at_mask_and, !at_mask_s_gt_c, at_mask_s_ge'.
    rewrite (value_lookup _ _ _ _ Hv), (value_lookup _ _ _ _ Hc),
      (value_lookup _ _ _ _ Hb), (value_lookup _ _ _ _ Hr).
    by intros [= [[? ?]%andb_prop ?]%andb_prop].
Qed.

Lemma grid_exit_gates_witness :
  fgt (value peak "volume" 0) 0 = true
  ∧ fge (value peak "close" 0) (value peak "bb_upperband" 0) = true
  ∧ fgt (value peak "rsi" 0) 70 = true.
Proof.
  apply (proj2 (grid_exit_gates peak 0 eq_refl)). vm_compute. reflexivity.
Defined.

End GridVariants.

(** ** Running the stages, and what they need *)
(* A mask built from columns that are not empty is not empty. *)
Ltac mask_rows :=
  unfold m_and, m_or, s_le, s_lt, s_gt, s_ge, s_gt_c, s_lt_c, s_ge_c;
  repeat first [apply zip_with_rows | apply fmap_rows];
  by eauto.

Ltac columns_present H :=
  repeat (apply Forall_cons in H; destruct H as [[? ?] H]); clear H.

Section GridIndicators.
Context {L : Indicators}.

Lemma grid_indicators_columns (df : DataFrame) (h l c v : Series)
    (enter exit : option Series) :
  df !! "high" = Some h → df !! "low" = Some l →
  df !! "close" = Some c → df !! "volume" = Some v →
  df !! "enter_long" = enter → df !! "exit_long" = exit →
  ∃ df',
    GridStrategy.populate_indicators df = Some df'
    ∧ df' !! "high" = Some h ∧ df' !! "low" = Some l
    ∧ df' !! "close" = Some c ∧ df' !! "volume" = Some v
    ∧ df' !! "enter_long" = enter ∧ df' !! "exit_long" = exit
    ∧ df' !! "sma_20" = Some (ta_SMA c 20)
    ∧ df' !! "sma_50" = Some (ta_SMA c 50)
    ∧ df' !! "rsi" = Some (ta_RSI c 14)
    ∧ df' !! "atr" = Some (ta_ATR h l c 14)
    ∧ df' !! "bb_lowerband" = Some (bb_lower (bollinger_bands c 20 2))
    ∧ df' !! "bb_upperband" = Some (bb_upper (bollinger_bands c 20 2))
    ∧ df' !! "bb_middleband" = Some (bb_mid (bollinger_bands c 20 2))
    ∧ df' !! "grid_buy_level"
      = Some (s_mul_c c (1 - GridStrategy.grid_spacing_percent / 100)%float)
    ∧ df' !! "grid_sell_level"
      = Some (s_mul_c c (1 + GridStrategy.grid_spacing_percent / 100)%float)
    ∧ df' !! "volume_sma" = Some (ta_SMA v 20).
Proof.
  intros Hh Hl Hc Hv He Hx. unfold GridStrategy.populate_indicators.
  do 4 run_assign. rewrite exec_nil, bind_Some_l. read_columns.
  do 6 run_assign. rewrite exec_nil.
  eexists. by repeat split.
Qed.

Lemma grid_v2_indicators_columns (df : DataFrame) (c v : Series)
    (enter exit : option Series) :
  df !! "close" = Some c → df !! "volume" = Some v →
  df !! "enter_long" = enter → df !! "exit_long" = exit →
  ∃ df',
    GridStrategyV2.populate_indicators df = Some df'
    ∧ df' !! "close" = Some c ∧ df' !! "volume" = Some v
    ∧ df' !! "enter_long" = enter ∧ df' !! "exit_long" = exit
    ∧ df' !! "bb_lowerband" = Some (bb_lower (bollinger_bands c 20 2))
    ∧ df' !! "bb_upperband" = Some (bb_upper (bollinger_bands c 20 2))
    ∧ df' !! "bb_middleband" = Some (bb_mid (bollinger_bands c 20 2))
    ∧ df' !! "rsi" = Some (ta_RSI c 14)
    ∧ df' !! "volume_sma" = Some (ta_SMA v 20).
Proof.
  intros Hc Hv He Hx. unfold GridStrategyV2.populate_indicators.
  read_columns. do 5 run_assign. rewrite exec_nil.
  eexists. by repeat split.
Qed.

Lemma rows_of_length {A B} (x : list A) (y : list B) :
  length x = length y → y ≠ [] → x ≠ [].
Proof. destruct x, y; simpl; (done || lia). Qed.

Lemma grid_signals_run (df : DataFrame) :
  Forall (λ n : string, ∃ s : Series, df !! n = Some s ∧ s ≠ [])
    grid_columns →
  is_Some (GridStrategy.populate_entry_trend df
             ≫= GridStrategy.populate_exit_trend)
  ∧ is_Some (GridStrategyV2.populate_entry_trend df
               ≫= GridStrategyV2.populate_exit_trend).
Proof.
  intros H. unfold grid_columns in H.
  repeat (apply Forall_cons in H; destruct H as [(? & ? & ?) H]).
  clear H. split.
  - unfold GridStrategy.populate_entry_trend, GridStrategy.entry_mask.
    read_columns. rewrite loc_assign_rows by mask_rows.
    rewrite bind_Some_l.
    unfold GridStrategy.populate_exit_trend, GridStrategy.exit_mask.
    rewrite !mark_rows_lookup_ne by done. read_columns.
    rewrite loc_assign_rows by mask_rows. by eexists.
  - unfold GridStrategyV2.populate_entry_trend, GridStrategyV2.entry_mask.
    read_columns. rewrite loc_assign_rows by mask_rows.
    rewrite bind_Some_l.
    unfold GridStrategyV2.populate_exit_trend, GridStrategyV2.exit_mask.
    rewrite !mark_rows_lookup_ne by done. read_columns.
    rewrite loc_assign_rows by mask_rows. by eexists.
Qed.

(** X8: on the frame of a candle series that is not empty, with an
    indicator library that returns one value per row, the three stages of
    every strategy run to the end, whatever the IchiV1 parameters are (the
    sell indicator being one of the eight trend_close columns): no stage
    reads a column that an earlier stage has not written. *)
Theorem stages_run (cs : list Candle) (p : BuyParams) (sell : string) :
  keeps_rows L →
  sell ∈ sell_options →
  cs ≠ [] →
  is_Some (run GridStrategy.populate_indicators
             GridStrategy.populate_entry_trend
             GridStrategy.populate_exit_trend cs)
  ∧ is_Some (run GridStrategyV2.populate_indicators
               GridStrategyV2.populate_entry_trend
               GridStrategyV2.populate_exit_trend cs)
  ∧ is_Some (run IchiV1.populate_indicators (IchiV1.populate_entry_trend p)
               (IchiV1.populate_exit_trend sell) cs).
Proof.
  intros Hkeep Hsell Hcs.
  destruct (frame_of_candles_columns cs)
    as (Ho & Hh & Hl & Hc & Hv & He & Hx).
  pose proof Hkeep as (Hsma & _ & Hrsi & Hbb & _).
  assert (c_close <$> cs ≠ []) as Hc' by by apply fmap_rows.
  assert (c_volume <$> cs ≠ []) as Hv' by by apply fmap_rows.
  destruct (Hbb (c_close <$> cs) 20 2%float) as [Hbl Hbu]; [lia|].
  assert (∀ s : Series, length s = length (c_close <$> cs) → s ≠ [])
    as Hlen by (intros s Hs; by apply (rows_of_length _ _ Hs)).
  assert (ta_SMA (c_volume <$> cs) 20 ≠ []) as Hvs
    by (apply (rows_of_length _ (c_volume <$> cs)); [apply Hsma; lia|done]).
  unfold run. split; [|split].
  - destruct (grid_indicators_columns _ _ _ _ _ _ _ Hh Hl Hc Hv He Hx)
      as (df1 & -> & _ & _ & Hc1 & Hv1 & _ & _ & Hs20 & _ & Hr & _ & Hl1
          & Hu1 & _ & _ & _ & Hvs1).
    rewrite bind_Some_l. apply (grid_signals_run df1).
    unfold grid_columns. repeat (apply Forall_cons_2); [..|apply Forall_nil_2];
      eexists; (split; [done|]);
      first [done
            |apply Hlen; first [done | apply Hsma; lia | apply Hrsi; lia]].
  - destruct (grid_v2_indicators_columns _ _ _ _ _ Hc Hv He Hx)
      as (df1 & -> & Hc1 & Hv1 & _ & _ & Hl1 & Hu1 & _ & Hr & Hvs1).
    rewrite bind_Some_l.
    unfold GridStrategyV2.populate_entry_trend, GridStrategyV2.entry_mask.
    read_columns.
    assert (ta_RSI (c_close <$> cs) 14 ≠ []) as Hr'
      by (apply Hlen, Hrsi; lia).
    assert (bb_lower (bollinger_bands (c_close <$> cs) 20 2) ≠ [])
      by by apply Hlen.
    assert (bb_upper (bollinger_bands (c_close <$> cs) 20 2) ≠ [])
      by by apply Hlen.
    rewrite loc_assign_rows by mask_rows. rewrite bind_Some_l.
    unfold GridStrategyV2.populate_exit_trend, GridStrategyV2.exit_mask.
    rewrite !mark_rows_lookup_ne by done. read_columns.
    rewrite loc_assign_rows by mask_rows. by eexists.
  - destruct (ichi_run p sell cs Hkeep Hsell Hcs)
      as (ha & df1 & price & ind & _ & _ & _ & _ & _ & Hflags).
    destruct (Hflags 0) as [Hflag _]. unfold run in Hflag.
    destruct (_ ≫= _) as [df3|]; [by eexists|done].
Qed.

(** X16: on the empty candle series every strategy raises. The Grid
    indicator stages run and return columns without rows, and the entry
    assignment of the flag then raises ValueError; the IchiV1 indicator
    stage raises KeyError in the Heikin-Ashi helper, which reads row 0. *)
Theorem stages_raise_without_candles (p : BuyParams) (sell : string) :
  is_Some (GridStrategy.populate_indicators (frame_of_candles []))
  ∧ is_Some (GridStrategyV2.populate_indicators (frame_of_candles []))
  ∧ IchiV1.populate_indicators (frame_of_candles []) = None
  ∧ run GridStrategy.populate_indicators GridStrategy.populate_entry_trend
      GridStrategy.populate_exit_trend [] = None
  ∧ run GridStrategyV2.populate_indicators
      GridStrategyV2.populate_entry_trend
      GridStrategyV2.populate_exit_trend [] = None
  ∧ run IchiV1.populate_indicators (IchiV1.populate_entry_trend p)
      (IchiV1.populate_exit_trend sell) [] = None.
Proof.
  destruct (frame_of_candles_columns [])
    as (Ho & Hh & Hl & Hc & Hv & He & Hx).
  destruct (grid_indicators_columns _ _ _ _ _ _ _ Hh Hl Hc Hv He Hx)
    as (df1 & Hrun1 & _ & _ & Hc1 & Hv1 & He1 & _ & Hs20 & _ & Hr & _ & Hl1
        & _ & _ & _ & _ & Hvs1).
  destruct (grid_v2_indicators_columns _ _ _ _ _ Hc Hv He Hx)
    as (df2 & Hrun2 & Hc2 & Hv2 & He2 & _ & Hl2 & _ & _ & Hr2 & _).
  assert (IchiV1.populate_indicators (frame_of_candles []) = None) as Hrun3
    by by apply (ichi_populate_raises _ _ _ _ _ Ho Hh Hl Hc).
  unfold run. rewrite Hrun1, Hrun2, Hrun3, !bind_Some_l.
  do 3 (split; [done|]). split; [|split; [|done]].
  - unfold GridStrategy.populate_entry_trend, GridStrategy.entry_mask.
    read_columns. change (s_gt_c (c_close <$> []) 0) with (@nil bool).
    unfold m_and at 1. rewrite zip_with_nil_r.
    unfold loc_assign. by rewrite He1.
  - unfold GridStrategyV2.populate_entry_trend, GridStrategyV2.entry_mask.
    read_columns. change (s_gt_c (c_volume <$> []) 0) with (@nil bool).
    unfold m_and at 1. rewrite zip_with_nil_r.
    unfold loc_assign. by rewrite He2.
Qed.

End GridIndicators.

Lemma stages_run_witness :
  is_Some (run (GridStrategy.populate_indicators (L := Reference.indicators))
             GridStrategy.populate_entry_trend
             GridStrategy.populate_exit_trend two_candles)
  ∧ is_Some (run (IchiV1.populate_indicators (L := Reference.indicators))
               (IchiV1.populate_entry_trend IchiV1_Fixed.buy_params)
               (IchiV1.populate_exit_trend "trend_close_30m") two_candles).
Proof.
  assert ("trend_close_30m" ∈ sell_options) as Hsell
    by (unfold sell_options;
        repeat first [by apply list_elem_of_here | apply list_elem_of_further]).
  assert (two_candles ≠ []) as Hcs by done.
  destruct (stages_run (L := Reference.indicators) two_candles
              IchiV1_Fixed.buy_params "trend_close_30m"
              reference_keeps_rows Hsell Hcs) as (Hgrid & _ & Hichi).
  by split.
Defined.

(** ** Missing columns *)
Section MissingColumns.

Lemma gain_in_entry_exprs (p : BuyParams) :
  c_ge_c "fan_magnitude_gain" (buy_min_fan_magnitude_gain p) ∈ entry_exprs p.
Proof.
  unfold entry_exprs. apply elem_of_app. left. apply elem_of_app. left.
  apply elem_of_app. right. apply list_elem_of_singleton. reflexivity.
Qed.

Lemma entry_needs_fan (p : BuyParams) (df : DataFrame) :
  is_Some (IchiV1.populate_entry_trend p df) →
  is_Some (df !! "fan_magnitude") ∧ is_Some (df !! "fan_magnitude_gain").
Proof.
  unfold IchiV1.populate_entry_trend.
  destruct (IchiV1.entry_conditions p df) as [conds|] eqn:E;
    [intros _|by intros [? ?]].
  rewrite entry_conditions_eq in E.
  destruct (mapM_elem_of _ _ _ _ E (fan_in_entry_exprs p)) as (y & Hy & _).
  destruct (mapM_elem_of _ _ _ _ E (gain_in_entry_exprs p)) as (z & Hz & _).
  unfold eval, c_gt_c in Hy. unfold eval, c_ge_c in Hz.
  destruct (df !! "fan_magnitude"); [|done].
  destruct (df !! "fan_magnitude_gain"); [|done].
  split; by eexists.
Qed.

(** X9: a signal function raises KeyError exactly when a column it reads
    is missing: it raises on every frame that lacks one of its columns, and
    returns on every frame with rows that holds them. For the four Grid
    functions and the IchiV1 exit the columns are listed; the IchiV1 entry
    returns on a frame with rows that holds all of [ichi_columns] and raises
    when fan_magnitude or fan_magnitude_gain is missing. In particular
    every signal function raises on the frame of a candle series before the
    indicator stage has run. *)
Theorem signals_need_columns (p : BuyParams) (sell : string)
    (cs : list Candle) :
  reads GridStrategy.populate_entry_trend
    ["close"; "bb_lowerband"; "rsi"; "sma_20"; "volume"; "volume_sma"]
  ∧ reads GridStrategy.populate_exit_trend
      ["close"; "bb_upperband"; "rsi"; "sma_20"; "volume"; "volume_sma"]
  ∧ reads GridStrategyV2.populate_entry_trend
      ["close"; "bb_lowerband"; "rsi"; "volume"]
  ∧ reads GridStrategyV2.populate_exit_trend
      ["close"; "bb_upperband"; "rsi"; "volume"]
  ∧ reads (IchiV1.populate_exit_trend sell) ["trend_close_5m"; sell]
  ∧ (∀ df, has_rows df →
           Forall (λ n : string, is_Some (df !! n)) ichi_columns →
           is_Some (IchiV1.populate_entry_trend p df))
  ∧ (∀ df, is_Some (IchiV1.populate_entry_trend p df) →
           is_Some (df !! "fan_magnitude")
           ∧ is_Some (df !! "fan_magnitude_gain"))
  ∧ GridStrategy.populate_entry_trend (frame_of_candles cs) = None
  ∧ GridStrategy.populate_exit_trend (frame_of_candles cs) = None
  ∧ GridStrategyV2.populate_entry_trend (frame_of_candles cs) = None
  ∧ GridStrategyV2.populate_exit_trend (frame_of_candles cs) = None
  ∧ IchiV1.populate_entry_trend p (frame_of_candles cs) = None
  ∧ IchiV1.populate_exit_trend sell (frame_of_candles cs) = None.
Proof.
  assert (frame_of_candles cs !! "bb_lowerband" = None
          ∧ frame_of_candles cs !! "bb_upperband" = None
          ∧ frame_of_candles cs !! "trend_close_5m" = None
          ∧ frame_of_candles cs !! "fan_magnitude" = None) as (Hbl & Hbu & Ht & Hf)
    by (unfold frame_of_candles; repeat split; by frame_lookup).
  destruct (frame_of_candles_columns cs) as (_ & _ & _ & Hc & _).
  assert (∀ (f : DataFrame → option DataFrame) names,
            (∀ df, is_Some (f df) →
                   Forall (λ n : string, is_Some (df !! n)) names) →
            (∀ df, has_rows df →
                   Forall (λ n : string, is_Some (df !! n)) names →
                   is_Some (f df)) →
            reads f names) as Hreads by (intros f names H1 H2 df; auto).
  split; [|split; [|split; [|split; [|split; [|split; [|split]]]]]].
  1-5: apply Hreads; intros df.
  1,3,5,7,9:
    unfold GridStrategy.populate_entry_trend, GridStrategy.entry_mask,
      GridStrategy.populate_exit_trend, GridStrategy.exit_mask,
      GridStrategyV2.populate_entry_trend, GridStrategyV2.entry_mask,
      GridStrategyV2.populate_exit_trend, GridStrategyV2.exit_mask,
      IchiV1.populate_exit_trend, IchiV1.exit_conditions;
    rewrite ?Forall_cons, ?Forall_nil, ?is_Some_alt;
    repeat match goal with
           | |- context [?d !! ?n] => is_var d; destruct (d !! n)
           end; simpl; tauto.
  1-5:
    intros Hrows H; columns_present H;
    unfold GridStrategy.populate_entry_trend, GridStrategy.entry_mask,
      GridStrategy.populate_exit_trend, GridStrategy.exit_mask,
      GridStrategyV2.populate_entry_trend, GridStrategyV2.entry_mask,
      GridStrategyV2.populate_exit_trend, GridStrategyV2.exit_mask,
      IchiV1.populate_exit_trend, IchiV1.exit_conditions;
    read_columns; cbn [app activate foldl];
    (rewrite loc_assign_rows;
     [by eexists
     |first [apply crossed_below_rows; by eauto | mask_rows]]).
  - intros df Hrows Hcols.
    pose proof (flag_after_entry_rows p df 0 Hcols
                  (has_rows_columns df Hrows)) as Hflag.
    destruct (df !! "enter_long") as [old|] eqn:He.
    + unfold IchiV1.populate_entry_trend.
      destruct (entry_conditions_total p df Hcols) as [conds ->].
      rewrite bind_Some_l. destruct conds; [by eexists|]. simpl.
      rewrite loc_assign_present by by eexists. by eexists.
    + specialize (Hflag eq_refl).
      destruct (IchiV1.populate_entry_trend p df); [by eexists|done].
  - intros df. apply entry_needs_fan.
  - repeat split.
    all: try (unfold GridStrategy.populate_entry_trend,
                GridStrategy.entry_mask,
                GridStrategy.populate_exit_trend, GridStrategy.exit_mask,
                GridStrategyV2.populate_entry_trend,
                GridStrategyV2.entry_mask,
                GridStrategyV2.populate_exit_trend,
                GridStrategyV2.exit_mask,
                IchiV1.populate_exit_trend, IchiV1.exit_conditions;
              rewrite ?Hc, ?Hbl, ?Hbu, ?Ht; done).
    destruct (IchiV1.populate_entry_trend p (frame_of_candles cs)) eqn:E;
      [|done].
    destruct (entry_needs_fan p (frame_of_candles cs)) as [[? H] _];
      [by eexists|].
    by rewrite Hf in H.
Qed.

Lemma signals_need_columns_witness :
  is_Some (GridStrategy.populate_entry_trend dip)
  ∧ is_Some (GridStrategyV2.populate_exit_trend dip).
Proof.
  assert (has_rows dip) as Hrows by frame_has_rows.
  destruct (signals_need_columns IchiV1_Fixed.buy_params "trend_close_30m" [])
    as (H1 & _ & _ & H4 & _).
  split.
  - apply (proj2 (H1 dip) Hrows). repeat constructor; by eexists.
  - apply (proj2 (H4 dip) Hrows). repeat constructor; by eexists.
Defined.

End MissingColumns.

(** ** The exit on the price itself *)
Section ExitOnPrice.

Lemma flt_irrefl (x : float) : flt x x = false.
Proof.
  unfold flt. rewrite FloatAxioms.ltb_spec. unfold SFltb.
  destruct (Prim2SF x) as [[]|[]| |[] m e]; simpl; try done;
    by rewrite Z.compare_refl, Pos.compare_cont_refl.
Qed.

(** X10: with sell_trend_indicator = trend_close_5m, one of the eight
    choices of the parameter, on a frame with at least one row
    populate_exit_trend runs and never sets the exit flag: the price does
    not cross below itself. *)
Theorem exit_on_price_never_fires (df : DataFrame) (price : Series)
    (i : nat) :
  has_rows df →
  df !! "trend_close_5m" = Some price →
  df !! "exit_long" = None →
  flag_after (IchiV1.populate_exit_trend "trend_close_5m" df) "exit_long" i
  = Some false.
Proof.
  intros Hrows Hp Hfresh.
  unfold IchiV1.populate_exit_trend, IchiV1.exit_conditions.
  rewrite Hp. cbn [mbind option_bind app activate foldl].
  rewrite flag_after_loc_assign_rows
    by (done || apply crossed_below_rows; by eapply Hrows).
  f_equal. rewrite lookup_crossed_below. destruct i as [|j]; [done|].
  by rewrite crossed_below_at_rows, flt_irrefl, andb_false_r.
Qed.

Lemma exit_on_price_never_fires_witness :
  flag_after (IchiV1.populate_exit_trend "trend_close_5m" crossing)
    "exit_long" 2 = Some false.
Proof.
  assert (has_rows crossing) as Hrows by frame_has_rows.
  exact (exit_on_price_never_fires crossing [NaN; 5%float; 3%float] 2
           Hrows eq_refl eq_refl).
Defined.

End ExitOnPrice.

(** ** Running the Grid indicator stage again *)
Section IndicatorsAgain.
Context {L : Indicators}.

Lemma exec_fixed (prog : list (string * Expr)) (df : DataFrame) :
  Forall (λ ne : string * Expr, is_Some (df !! ne.1) ∧ ne.2 df = df !! ne.1)
    prog →
  exec prog df = Some df.
Proof.
  induction 1 as [|[n e] prog [[s Hs] He] _ IH]; [done|].
  rewrite exec_cons. simpl in *. rewrite He, Hs, bind_Some_l.
  by rewrite insert_id.
Qed.

(** X11: the indicator stage of GridStrategy and of GridStrategyV2 is
    idempotent: on a frame with the candle columns it runs, and running it
    again on its result returns that result unchanged (the stage reads
    close, high, low and volume only, which it never writes). *)
Theorem grid_indicators_idempotent (df : DataFrame) (h l c v : Series) :
  df !! "high" = Some h → df !! "low" = Some l →
  df !! "close" = Some c → df !! "volume" = Some v →
  (∃ df', GridStrategy.populate_indicators df = Some df'
          ∧ GridStrategy.populate_indicators df' = Some df')
  ∧ (∃ df', GridStrategyV2.populate_indicators df = Some df'
            ∧ GridStrategyV2.populate_indicators df' = Some df').
Proof.
  intros Hh Hl Hc Hv. split.
  - destruct (grid_indicators_columns df h l c v _ _ Hh Hl Hc Hv
                eq_refl eq_refl)
      as (df' & Hrun & Hh' & Hl' & Hc' & Hv' & _ & _ & H1 & H2 & H3 & H4
          & H5 & H6 & H7 & H8 & H9 & H10).
    exists df'. split; [done|]. unfold GridStrategy.populate_indicators.
    rewrite exec_fixed.
    + rewrite bind_Some_l, Hc', bind_Some_l. apply exec_fixed.
      repeat constructor; simpl;
        unfold const, e_mul_c, col, on_col; rewrite ?Hc', ?Hv'; try done;
        by eexists.
    + repeat constructor; simpl;
        unfold on_close, on_hlc; rewrite ?Hc', ?Hh', ?Hl'; try done;
        by eexists.
  - destruct (grid_v2_indicators_columns df c v _ _ Hc Hv eq_refl eq_refl)
      as (df' & Hrun & Hc' & Hv' & _ & _ & H1 & H2 & H3 & H4 & H5).
    exists df'. split; [done|]. unfold GridStrategyV2.populate_indicators.
    rewrite Hc', bind_Some_l. apply exec_fixed.
    repeat constructor; simpl;
      unfold const, on_close, on_col; rewrite ?Hc', ?Hv'; try done;
      by eexists.
Qed.

End IndicatorsAgain.

Lemma grid_indicators_idempotent_witness :
  ∃ df',
    GridStrategy.populate_indicators (L := Reference.indicators)
      (frame_of_candles two_candles) = Some df'
    ∧ GridStrategy.populate_indicators (L := Reference.indicators) df'
      = Some df'.
Proof.
  exact (proj1 (grid_indicators_idempotent (L := Reference.indicators)
                  (frame_of_candles two_candles) [3; 5]%float [0; 2]%float
                  [2; 4]%float [10; 10]%float
                  eq_refl eq_refl eq_refl eq_refl)).
Defined.

(** ** The stop-loss hook at the edges *)
Section StoplossEdges.

(** X12: whatever the running profit, NaN and the infinities included, the
    stop GridStrategy.custom_stoploss returns lies between the configured
    stop-loss -0.05 and -0.02: the hook never widens the stop and never
    returns a positive one. An undefined profit gets the configured
    stop-loss. *)
Theorem custom_stoploss_bounds {Trade : Type} (pair : string) (trade : Trade)
    (current_time : Z) (current_rate current_profit : float) :
  fle GridStrategy.stoploss
    (GridStrategy.custom_stoploss pair trade current_time current_rate
       current_profit) = true
  ∧ fle (GridStrategy.custom_stoploss pair trade current_time current_rate
           current_profit) (-0.02) = true
  ∧ (PrimFloat.is_nan current_profit = true →
     GridStrategy.custom_stoploss pair trade current_time current_rate
       current_profit = GridStrategy.stoploss).
Proof.
  unfold GridStrategy.custom_stoploss. repeat split.
  - by destruct (fgt current_profit 0.01).
  - by destruct (fgt current_profit 0.01).
  - intros H. rewrite fgt_nan; [done|by left].
Qed.

End StoplossEdges.

(** ** What the IchiV1 indicators are computed from *)
Section IchiInputs.
Context {L : Indicators}.

(** X13: in the IchiV1 indicator stage the open, high and low columns are
    overwritten before anything else is computed. So, on a frame with at
    least one row, the trend_close columns are the close and its EMAs, the
    trend_open columns are the Heikin-Ashi open and its EMAs (not the
    candle's open), and the cloud boundaries and the ATR are computed from
    the Heikin-Ashi high and low with the unsmoothed close. *)
Theorem ichi_indicator_inputs (df : DataFrame) (o h l c : Series) :
  df !! "open" = Some o → df !! "high" = Some h →
  df !! "low" = Some l → df !! "close" = Some c →
  o ≠ [] → c ≠ [] →
  ∃ df' ha,
    IchiV1.populate_indicators df = Some df'
    ∧ heikinashi_of o h l c = Some ha
    ∧ df' !! "trend_close_5m" = Some c
    ∧ df' !! "trend_close_15m" = Some (ta_EMA c 3)
    ∧ df' !! "trend_close_30m" = Some (ta_EMA c 6)
    ∧ df' !! "trend_close_1h" = Some (ta_EMA c 12)
    ∧ df' !! "trend_close_2h" = Some (ta_EMA c 24)
    ∧ df' !! "trend_close_4h" = Some (ta_EMA c 48)
    ∧ df' !! "trend_close_6h" = Some (ta_EMA c 72)
    ∧ df' !! "trend_close_8h" = Some (ta_EMA c 96)
    ∧ df' !! "trend_open_5m" = Some (ha_open ha)
    ∧ df' !! "trend_open_15m" = Some (ta_EMA (ha_open ha) 3)
    ∧ df' !! "trend_open_30m" = Some (ta_EMA (ha_open ha) 6)
    ∧ df' !! "trend_open_1h" = Some (ta_EMA (ha_open ha) 12)
    ∧ df' !! "trend_open_2h" = Some (ta_EMA (ha_open ha) 24)
    ∧ df' !! "trend_open_4h" = Some (ta_EMA (ha_open ha) 48)
    ∧ df' !! "trend_open_6h" = Some (ta_EMA (ha_open ha) 72)
    ∧ df' !! "trend_open_8h" = Some (ta_EMA (ha_open ha) 96)
    ∧ df' !! "senkou_a"
      = Some (senkou_span_a
                (ichimoku (ha_high ha) (ha_low ha) c 20 60 120 30))
    ∧ df' !! "senkou_b"
      = Some (senkou_span_b
                (ichimoku (ha_high ha) (ha_low ha) c 20 60 120 30))
    ∧ df' !! "atr" = Some (ta_ATR (ha_high ha) (ha_low ha) c 14).
Proof.
  intros Ho Hh Hl Hc Ho' Hc'.
  destruct (heikinashi_of_rows o h l c Ho' Hc') as [ha Hha].
  destruct (ichi_populate df o h l c ha _ _ _ Ho Hh Hl Hc
              eq_refl eq_refl eq_refl Hha) as (df' & Hrun & []).
  exists df', ha. repeat split; assumption.
Qed.

End IchiInputs.

Lemma ichi_indicator_inputs_witness :
  ∃ df',
    IchiV1.populate_indicators (L := Reference.indicators)
      (frame_of_candles two_candles) = Some df'
    ∧ df' !! "trend_close_5m" = Some [2; 4]%float
    ∧ df' !! "trend_open_5m" = Some [1.5; 1.5]%float.
Proof.
  destruct (ichi_indicator_inputs (L := Reference.indicators)
              (frame_of_candles two_candles)
              [1; 3]%float [3; 5]%float [0; 2]%float [2; 4]%float
              eq_refl eq_refl eq_refl eq_refl)
    as (df' & ha & Hrun & Hha & Hc & _ & _ & _ & _ & _ & _ & _ & Ho & _);
    [done..|].
  exists df'. split; [exact Hrun|]. split; [exact Hc|].
  rewrite Ho. injection Hha as <-. reflexivity.
Defined.

(** ** Parameters outside their ranges, and the first row *)
Section EntryEdges.
Context {L : Indicators}.

Lemma level_guard_clamped (k a a' : Z) :
  Z.min 8 (Z.max 0 a) = Z.min 8 (Z.max 0 a') →
  (1 ≤ k ≤ 8)%Z →
  (k <=? a)%Z = (k <=? a')%Z.
Proof.
  intros H Hk. destruct (Z.leb_spec k a), (Z.leb_spec k a'); try done; lia.
Qed.

(** X14: populate_entry_trend treats a level parameter outside 1..8 as the
    nearest of 0 and 8, and a negative buy_fan_magnitude_shift_value as 0:
    two parameter sets that agree after this clamping (and on the minimum
    gain) give the same result on every frame. *)
Theorem entry_levels_clamp (p p' : BuyParams) (df : DataFrame) :
  Z.min 8 (Z.max 0 (buy_trend_above_senkou_level p))
  = Z.min 8 (Z.max 0 (buy_trend_above_senkou_level p')) →
  Z.min 8 (Z.max 0 (buy_trend_bullish_level p))
  = Z.min 8 (Z.max 0 (buy_trend_bullish_level p')) →
  Z.max 0 (buy_fan_magnitude_shift_value p)
  = Z.max 0 (buy_fan_magnitude_shift_value p') →
  buy_min_fan_magnitude_gain p = buy_min_fan_magnitude_gain p' →
  IchiV1.populate_entry_trend p df = IchiV1.populate_entry_trend p' df.
Proof.
  intros Ha Hb Hs Hg. unfold IchiV1.populate_entry_trend.
  rewrite !entry_conditions_eq.
  replace (entry_exprs p) with (entry_exprs p'); [done|].
  unfold entry_exprs. rewrite Hg.
  replace (Z.to_nat (buy_fan_magnitude_shift_value p))
    with (Z.to_nat (buy_fan_magnitude_shift_value p')) by lia.
  by rewrite !(λ k, level_guard_clamped k _ _ Ha),
    !(λ k, level_guard_clamped k _ _ Hb) by lia.
Qed.

Lemma entry_levels_clamp_witness :
  IchiV1.populate_entry_trend
    {| buy_fan_magnitude_shift_value := -2;
       buy_min_fan_magnitude_gain := 1.0%float;
       buy_trend_above_senkou_level := 1;
       buy_trend_bullish_level := 1 |} falling_fan
  = IchiV1.populate_entry_trend scenario falling_fan.
Proof. by apply entry_levels_clamp. Defined.

(** X15: on every candle series that is not empty, with an indicator
    library that returns one value per row and whatever the parameters are
    (the sell indicator being one of the eight trend_close columns), the
    three IchiV1 stages run and never set the entry flag at row 0: the fan
    magnitude gain of the first row divides by a missing value. *)
Theorem ichi_no_entry_at_first_row (p : BuyParams) (sell : string)
    (cs : list Candle) :
  keeps_rows L →
  sell ∈ sell_options →
  cs ≠ [] →
  flag_after
    (run IchiV1.populate_indicators (IchiV1.populate_entry_trend p)
       (IchiV1.populate_exit_trend sell) cs) "enter_long" 0
  = Some false.
Proof.
  intros Hkeep Hsell Hcs.
  destruct (ichi_run p sell cs Hkeep Hsell Hcs)
    as (ha & df1 & price & ind & _ & _ & Hp & _ & _ & Hflags).
  rewrite (proj1 (Hflags 0)). f_equal. unfold entry_at.
  rewrite (fge_nan (value df1 "fan_magnitude_gain" 0));
    [by rewrite andb_false_r|].
  left. rewrite (value_lookup _ _ _ _ (ip_gain _ _ _ _ _ _ Hp)).
  apply row_gain_0.
Qed.

End EntryEdges.

Lemma ichi_no_entry_at_first_row_witness :
  flag_after
    (run (IchiV1.populate_indicators (L := Reference.indicators))
       (IchiV1.populate_entry_trend IchiV1_Fixed.buy_params)
       (IchiV1.populate_exit_trend "trend_close_30m") candles8)
    "enter_long" 0 = Some false.
Proof.
  apply (ichi_no_entry_at_first_row (L := Reference.indicators));
    [apply reference_keeps_rows| |done].
  unfold sell_options.
  repeat first [by apply list_elem_of_here | apply list_elem_of_further].
Defined.
